(** * AI Daily News: the news pipeline and the offline cache

    A shallow embedding of the two programs of the repository that carry
    decision logic:

    - the scheduled Node.js script in its current form, the one with the
      relevance filter (fetch, classify, sort, truncate, summarise,
      persist): [loadFilterRules], [escapeRegExp], [buildTermPattern],
      [extractHost], [isExcludedDomain], [findMatchedTerms],
      [isAiRelatedArticle], [fetchNews], [buildFallbackSummary],
      [summarizeArticle], [processNews];
    - the service worker of cache version [ai-news-v2]: the install,
      activate and fetch listeners.

    JavaScript strings are sequences of UTF-16 code units and are kept as
    such: a string is a [list N].  What the script obtains from the
    JavaScript host (case conversion, the canonical form of a code unit
    under the [i] flag, the URL and date parsers, JSON.parse) is a member
    of the class [Engine]; every general theorem holds for every engine.
    The regular expressions the script builds are compiled by a parser for
    the fragment of the pattern grammar their sources lie in, and run by a
    backtracking matcher.  What lies outside the script (the news API, the
    language model, the clock, the disk, the network of the worker) enters
    as an input of the function that meets it. *)

From Stdlib Require Import ZArith NArith QArith List Bool Lia String Ascii.
From stdpp Require Import base option list gmap sorting.

Local Open Scope N_scope.
Local Open Scope list_scope.

(** ** JavaScript strings *)

Module JS.

Abbreviation jsstring := (list N).

(** A literal of the source, code unit by code unit (for ASCII literals
    a code unit is the octet). *)
Definition js (s : string) : jsstring := List.map N_of_ascii (list_ascii_of_string s).

Definition ch (a : ascii) : N := N_of_ascii a.

(** The line feed of the template literals. *)
Definition LF : jsstring := [0xA].

(** WhiteSpace and LineTerminator code units: what [\s] matches and what
    [String.prototype.trim] strips. *)
Definition WhiteSpaceSet : list N :=
  [ 0x9; 0xA; 0xB; 0xC; 0xD; 0x20; 0xA0; 0x1680;
    0x2000; 0x2001; 0x2002; 0x2003; 0x2004; 0x2005; 0x2006; 0x2007;
    0x2008; 0x2009; 0x200A; 0x2028; 0x2029; 0x202F; 0x205F; 0x3000; 0xFEFF ].

Definition mem (c : N) (A : list N) : bool := existsb (N.eqb c) A.

Definition isWhiteSpace (c : N) : bool := mem c WhiteSpaceSet.

(** The basic word characters [A-Za-z0-9_] of [\b] (no [u] flag). *)
Definition isWordChar (c : N) : bool :=
  ((0x41 <=? c) && (c <=? 0x5A)) || ((0x61 <=? c) && (c <=? 0x7A)) ||
  ((0x30 <=? c) && (c <=? 0x39)) || (c =? 0x5F).

Fixpoint trimStart (s : jsstring) : jsstring :=
  match s with
  | c :: s' => if isWhiteSpace c then trimStart s' else s
  | [] => []
  end.

Definition trimEnd (s : jsstring) : jsstring := reverse (trimStart (reverse s)).

Definition trim (s : jsstring) : jsstring := trimEnd (trimStart s).

Definition eqb (s t : jsstring) : bool := bool_decide (s = t).

Fixpoint startsWith (s p : jsstring) : bool :=
  match p, s with
  | [], _ => true
  | a :: p', b :: s' => (a =? b) && startsWith s' p'
  | _ :: _, [] => false
  end.

Definition endsWith (s p : jsstring) : bool := startsWith (reverse s) (reverse p).

Fixpoint includes (s p : jsstring) : bool :=
  startsWith s p || match s with _ :: s' => includes s' p | [] => false end.

(** [x || ''] on a field that holds a string, null or undefined. *)
Definition orEmpty (x : option jsstring) : jsstring := default [] x.

(** Truthiness of such a field: a non-empty string. *)
Definition truthy (x : option jsstring) : bool :=
  match x with Some (_ :: _) => true | _ => false end.

(** [Array.prototype.sort] with a comparator: a stable sort, here by
    insertion.  [cmp x y <= 0] keeps [x], which came first, before [y].  For
    a comparator that is not a consistent ordering the language leaves the
    result to the implementation; this definition then is one such
    implementation. *)
Fixpoint insert {A} (cmp : A -> A -> Z) (x : A) (l : list A) : list A :=
  match l with
  | [] => [x]
  | y :: l' => if (cmp x y <=? 0)%Z then x :: l else y :: insert cmp x l'
  end.

Fixpoint sort {A} (cmp : A -> A -> Z) (l : list A) : list A :=
  match l with
  | [] => []
  | x :: l' => insert cmp x (sort cmp l')
  end.

(** Values produced by JSON.parse.  A number is kept as the rational its
    double denotes; an object as its own properties. *)
#[warnings="-register-all"]
Inductive json :=
  | JNull
  | JBool (b : bool)
  | JNumber (q : Q)
  | JString (s : jsstring)
  | JArray (l : list json)
  | JObject (props : list (jsstring * json)).

(** [v[key]] for a value that is not null: an own property of an object,
    undefined ([None]) otherwise. *)
Fixpoint lookupProp (props : list (jsstring * json)) (key : jsstring) : option json :=
  match props with
  | [] => None
  | (k, v) :: props' => if bool_decide (k = key) then Some v else lookupProp props' key
  end.

Definition prop (v : json) (key : jsstring) : option json :=
  match v with
  | JObject props => lookupProp props key
  | _ => None
  end.

Definition json_truthy (v : json) : bool :=
  match v with
  | JNull => false
  | JBool b => b
  | JNumber q => negb (Qnum q =? 0)%Z
  | JString s => match s with [] => false | _ => true end
  | JArray _ | JObject _ => true
  end.

(** What the script takes from the JavaScript host.

    - [toLowerCase s]: [s.toLowerCase()];
    - [Canonicalize c]: the canonical form of a code unit under the [i]
      flag without the [u] flag;
    - [URL_hostname u]: [new URL(u).hostname], [None] when the constructor
      throws;
    - [Date_getTime s]: [new Date(s).getTime()] in milliseconds, [None] for
      an invalid date (NaN);
    - [JSON_parse s]: [JSON.parse(s)], [None] when it throws. *)
Class Engine := {
  toLowerCase : jsstring -> jsstring;
  Canonicalize : N -> N;
  URL_hostname : jsstring -> option jsstring;
  Date_getTime : jsstring -> option Z;
  JSON_parse : jsstring -> option json;
  toLowerCase_empty : toLowerCase [] = []
}.

End JS.

Import JS.

(** ** Regular expressions *)

Module RegExp.

(** The terms of a pattern: the assertion [\b], an atom given by the set of
    code units it accepts, and an atom under the quantifier [+]. *)
Inductive Term :=
  | Assertion_b
  | Atom (A : list N)
  | AtomPlus (A : list N).

Definition pattern := list Term.

(** The fourteen syntax characters [^ $ \ . * + ? ( ) [ ] { } |]. *)
Definition SyntaxCharacters : list N :=
  List.map ch [ "^"; "$"; "\"; "."; "*"; "+"; "?"; "("; ")"; "["; "]"; "{"; "}"; "|" ]%char.

Definition isSyntaxCharacter (c : N) : bool := mem c SyntaxCharacters.

Definition quantified (A : list N) (rest : option pattern) (plus : bool) : option pattern :=
  (fun p => (if plus then AtomPlus A else Atom A) :: p) <$> rest.

(** [new RegExp(source, 'i')] on the fragment: pattern characters, a
    backslash before a syntax character, [\s], [\b], and [+] after an atom.
    [None] stands for every other source: those the constructor rejects and
    those outside the fragment. *)
Fixpoint parse (source : jsstring) : option pattern :=
  match source with
  | [] => Some []
  | c :: rest =>
    if c =? ch "\" then
      match rest with
      | [] => None
      | d :: rest' =>
        if d =? ch "b" then (fun p => Assertion_b :: p) <$> parse rest'
        else
          let A := if d =? ch "s" then Some WhiteSpaceSet
                   else if isSyntaxCharacter d then Some [d] else None in
          match A with
          | None => None
          | Some A =>
            match rest' with
            | q :: rest'' => if q =? ch "+" then quantified A (parse rest'') true
                             else quantified A (parse rest') false
            | [] => quantified A (parse rest') false
            end
          end
      end
    else if isSyntaxCharacter c then None
    else
      match rest with
      | q :: rest' => if q =? ch "+" then quantified [c] (parse rest') true
                      else quantified [c] (parse rest) false
      | [] => quantified [c] (parse rest) false
      end
  end.

Section Matcher.
Context `{Engine}.

(** CharacterSetMatcher under the [i] flag: some member of the set has
    the canonical form of the input code unit. *)
Definition accepts (A : list N) (x : N) : bool :=
  existsb (fun a => Canonicalize a =? Canonicalize x) A.

Definition wordAt (x : option N) : bool :=
  match x with Some c => isWordChar c | None => false end.

(** [\b]: exactly one of the code units around the position is a word
    character. *)
Definition boundary (prev next : option N) : bool := xorb (wordAt prev) (wordAt next).

(** One or more code units of [A], then the continuation [k]. *)
Fixpoint plus (A : list N) (k : option N -> jsstring -> bool) (s : jsstring) : bool :=
  match s with
  | x :: s' => accepts A x && (k (Some x) s' || plus A k s')
  | [] => false
  end.

(** Does the pattern match at the current position?  [prev] is the code
    unit before it, [s] the input from it on. *)
Fixpoint matchHere (p : pattern) (prev : option N) (s : jsstring) : bool :=
  match p with
  | [] => true
  | Assertion_b :: p' => boundary prev (head s) && matchHere p' prev s
  | Atom A :: p' =>
    match s with
    | x :: s' => accepts A x && matchHere p' (Some x) s'
    | [] => false
    end
  | AtomPlus A :: p' => plus A (matchHere p') s
  end.

Fixpoint search (p : pattern) (prev : option N) (s : jsstring) : bool :=
  matchHere p prev s ||
  match s with
  | x :: s' => search p (Some x) s'
  | [] => false
  end.

(** [pattern.test(text)] for a pattern without the [g] or [y] flag. *)
Definition test (p : pattern) (text : jsstring) : bool := search p None text.

(** [/^[a-z0-9]{1,3}$/i.test(s)] *)
Definition class_a_z_0_9 : list N :=
  List.map N.of_nat (seq 0x61 26) ++ List.map N.of_nat (seq 0x30 10).

Definition test_short_word (s : jsstring) : bool :=
  (1 <=? length s)%nat && (length s <=? 3)%nat && forallb (accepts class_a_z_0_9) s.
End Matcher.

End RegExp.

(** ** The news script *)

Module FetchNews.
Import RegExp.

Record FilterRules := {
  allow_keywords : list jsstring;
  exclude_domains : list jsstring;
  exclude_keywords : list jsstring
}.

(** The rules file as [loadFilterRules] meets it: [readFileSync] throws,
    [JSON.parse] throws (or yields [null], whose property access throws),
    or a document whose three fields are each an array of strings or
    something [Array.isArray] rejects ([None]). *)
Inductive RulesFile :=
  | Unreadable
  | Malformed
  | Document (allow domains exclude : option (list jsstring)).

Definition emptyRules : FilterRules :=
  {| allow_keywords := []; exclude_domains := []; exclude_keywords := [] |}.

Definition loadFilterRules (file : RulesFile) : FilterRules :=
  match file with
  | Document allow domains exclude =>
    {| allow_keywords := default [] allow;
       exclude_domains := default [] domains;
       exclude_keywords := default [] exclude |}
  | Unreadable | Malformed => emptyRules
  end.

(** [value.replace(/[.*+?^${}()|[\]\\]/g, '\\$&')] *)
Definition escapeRegExp (value : jsstring) : jsstring :=
  flat_map (fun c => if isSyntaxCharacter c then [ch "\"; c] else [c]) value.

(** [s.replace(/\s+/g, '\\s+')]; [inRun] tells that the code unit before
    belongs to the run of whitespace being replaced. *)
Fixpoint replaceWhitespaceRuns (inRun : bool) (s : jsstring) : jsstring :=
  match s with
  | [] => []
  | c :: s' =>
    if isWhiteSpace c
    then (if inRun then [] else js "\s+") ++ replaceWhitespaceRuns true s'
    else c :: replaceWhitespaceRuns false s'
  end.

Record Matcher := { term : jsstring; pattern : RegExp.pattern }.

(** An article of the news API; a field is [None] when it is null or
    absent. *)
Record Source := { name : option jsstring }.

Record RawArticle := {
  title : option jsstring;
  description : option jsstring;
  content : option jsstring;
  url : option jsstring;
  urlToImage : option jsstring;
  publishedAt : option jsstring;
  source : option Source
}.

Section Classifier.
Context `{Engine}.

Definition isShortWord (term : jsstring) : bool := test_short_word (trim term).

Definition regexSource (term : jsstring) : jsstring :=
  let escaped := replaceWhitespaceRuns false (escapeRegExp (toLowerCase (trim term))) in
  if isShortWord term then js "\b" ++ escaped ++ js "\b" else escaped.

(** [new RegExp(regexSource, 'i')].  The constructor never throws on
    these sources ([regexSource_parses] below), so the second branch is
    never taken. *)
Definition buildTermPattern (term : jsstring) : RegExp.pattern :=
  match parse (regexSource term) with
  | Some p => p
  | None => []
  end.

Definition extractHost (url : option jsstring) : jsstring :=
  match url with
  | None | Some [] => []
  | Some u =>
    match URL_hostname u with
    | Some h => toLowerCase h
    | None => []
    end
  end.

Section Rules.
Variable filterRules : FilterRules.

Definition allowKeywordMatchers : list Matcher :=
  List.map (fun term => {| term := term; pattern := buildTermPattern term |})
           (allow_keywords filterRules).

Definition excludeKeywordMatchers : list Matcher :=
  List.map (fun term => {| term := term; pattern := buildTermPattern term |})
           (exclude_keywords filterRules).

(** An entry of exclude_domains is a string, which [String(domain)]
    returns as it is. *)
Definition isExcludedDomain (url : option jsstring) : bool :=
  let host := extractHost url in
  match host with
  | [] => false
  | _ =>
    existsb (fun domain =>
               let normalized := trim (toLowerCase domain) in
               JS.eqb host normalized || endsWith host (ch "." :: normalized))
            (exclude_domains filterRules)
  end.

Definition findMatchedTerms (text : jsstring) (matchers : list Matcher) : list jsstring :=
  List.map (fun m => toLowerCase (term m))
           (List.filter (fun m => test (pattern m) text) matchers).

Definition combinedText (article : RawArticle) : jsstring :=
  let title := orEmpty (title article) in
  let description := orEmpty (description article) in
  let content := orEmpty (content article) in
  let source := orEmpty (source article ≫= name) in
  toLowerCase (title ++ LF ++ description ++ LF ++ content ++ LF ++ source).

Definition isAiRelatedArticle (article : RawArticle) : bool :=
  if isExcludedDomain (url article) then false
  else
    let allowHits := findMatchedTerms (combinedText article) allowKeywordMatchers in
    if (length allowHits =? 0)%nat then false
    else
      let excludeHits := findMatchedTerms (combinedText article) excludeKeywordMatchers in
      if (0 <? length excludeHits)%nat then
        let hasOnlyAiAsAllowTerm := forallb (fun term => JS.eqb term (js "ai")) allowHits in
        if hasOnlyAiAsAllowTerm then false else false
      else true.
End Rules.
End Classifier.


(** *** Summaries *)

(** What the language model call comes to: the call fails, or the reply
    carries a text. *)
Inductive ModelOutcome :=
  | CallFails
  | Replied (text : jsstring).

(** A field of an article as a JavaScript value. *)
Definition ofField (x : option jsstring) : json := from_option JString JNull x.

Record Summary := { title_ja : json; summary_ja : json }.

Definition unavailableMessage : jsstring :=
  [ 0x8a18; 0x4e8b; 0x306e; 0x8981; 0x7d04; 0x3092; 0x53d6; 0x5f97; 0x3067;
    0x304d; 0x307e; 0x305b; 0x3093; 0x3067; 0x3057; 0x305f; 0x3002 ].

Definition buildFallbackSummary (article : RawArticle) : jsstring :=
  let base :=
    if truthy (description article) then orEmpty (description article)
    else if truthy (title article) then orEmpty (title article)
    else unavailableMessage in
  if (200 <? length base)%nat then take 197 base ++ js "..." else base.

Definition fence : jsstring := js "```".

(** [text.replace(/^```json\s*/, '')] *)
Definition stripFenceStart (text : jsstring) : jsstring :=
  if startsWith text (fence ++ js "json") then trimStart (drop 7 text) else text.

(** [text.replace(/\s*```$/, '')] *)
Definition stripFenceEnd (text : jsstring) : jsstring :=
  if endsWith text fence then trimEnd (take (length text - 3) text) else text.

Definition orElse (v : option json) (other : json) : json :=
  match v with
  | Some x => if json_truthy x then x else other
  | None => other
  end.

Section Summarizer.
Context `{Engine}.

Definition fallback (article : RawArticle) : Summary :=
  {| title_ja := ofField (title article);
     summary_ja := JString (buildFallbackSummary article) |}.

(** The prompt decides nothing but the reply, which is an input here.
    [json.title_ja] throws on null, and the [catch] answers that like any
    other failure. *)
Definition summarizeArticle (outcome : ModelOutcome) (article : RawArticle) : Summary :=
  match outcome with
  | CallFails => fallback article
  | Replied reply =>
    let text := stripFenceEnd (stripFenceStart (trim reply)) in
    match JSON_parse text with
    | None | Some JNull => fallback article
    | Some json =>
      {| title_ja := orElse (prop json (js "title_ja")) (ofField (title article));
         summary_ja := orElse (prop json (js "summary_ja"))
                              (JString (buildFallbackSummary article)) |}
    end
  end.
End Summarizer.

(** *** The run *)

Record ProcessedArticle := {
  p_title : option jsstring;
  p_title_ja : json;
  original_url : option jsstring;
  image_url : option jsstring;
  published_at : option jsstring;
  p_source : option jsstring;
  p_summary_ja : json
}.

Record Snapshot := { updated_at : jsstring; articles : list ProcessedArticle }.

(** The files under public/, each held as the snapshot it serialises. *)
Abbreviation Disk := (gmap jsstring Snapshot).

Definition latestPath : jsstring := js "public/data/latest.json".
Definition archivePath (today : jsstring) : jsstring :=
  js "public/archives/" ++ today ++ js ".json".

(** What a run meets outside the script: the answer of the news API, the
    outcome of the n-th call of the language model, the date in Tokyo and
    the instant at the end of the run, and whether a file can be written. *)
Inductive HttpOutcome :=
  | RequestFails
  | Responded (articles : list RawArticle).

Record World := {
  http : HttpOutcome;
  model : nat -> ModelOutcome;
  today : jsstring;
  now : jsstring;
  writable : jsstring -> bool
}.

Inductive Outcome :=
  | NoArticles          (* 'No articles found.' *)
  | NoRelevantArticles  (* 'No AI-related articles found after filtering.' *)
  | Threw               (* an exception left processNews *)
  | Saved.

Definition fetchNews (w : World) : list RawArticle :=
  match http w with
  | Responded articles => articles
  | RequestFails => []
  end.

(** A write replaces the whole file; a write that fails throws and leaves
    the file as it was. *)
Definition writeFileSync (w : World) (path : jsstring) (data : Snapshot) (disk : Disk)
  : option Disk :=
  if writable w path then Some (<[path := data]> disk) else None.

Section Pipeline.
Context `{Engine}.
Variable filterRules : FilterRules.

(** [new Date(publishedAt || 0).getTime()] *)
Definition getTime (publishedAt : option jsstring) : option Z :=
  if truthy publishedAt then Date_getTime (orEmpty publishedAt) else Some 0%Z.

(** The comparator of the sort: [dateB - dateA], NaN counting as 0. *)
Definition byDateDescending (a b : RawArticle) : Z :=
  match getTime (publishedAt a), getTime (publishedAt b) with
  | Some dateA, Some dateB => (dateB - dateA)%Z
  | _, _ => 0%Z
  end.

Definition topArticles (articles : list RawArticle) : list RawArticle :=
  let validArticles :=
    List.filter (fun article => negb (bool_decide (title article = Some (js "[Removed]"))))
                articles in
  let filteredArticles := List.filter (isAiRelatedArticle filterRules) validArticles in
  let sortedArticles := JS.sort byDateDescending filteredArticles in
  take 20 sortedArticles.

(** The loop over [topArticles]; [n] counts the calls of the model made
    so far.  [article.source.name] throws when the article has no
    source. *)
Fixpoint summarizeAll (w : World) (n : nat) (top : list RawArticle)
  : option (list ProcessedArticle) :=
  match top with
  | [] => Some []
  | article :: rest =>
    let s := summarizeArticle (model w n) article in
    match source article with
    | None => None
    | Some src =>
      (fun processed =>
         {| p_title := title article;
            p_title_ja := title_ja s;
            original_url := url article;
            image_url := urlToImage article;
            published_at := publishedAt article;
            p_source := name src;
            p_summary_ja := summary_ja s |} :: processed)
      <$> summarizeAll w (S n) rest
    end
  end.

(** The run, from the fetch to the two writes: how it ends and what the
    disk holds then. *)
Definition processNews (w : World) (disk : Disk) : Outcome * Disk :=
  let articles := fetchNews w in
  if (length articles =? 0)%nat then (NoArticles, disk)
  else
    let top := topArticles articles in
    if (length top =? 0)%nat then (NoRelevantArticles, disk)
    else
      match summarizeAll w 0 top with
      | None => (Threw, disk)
      | Some processedArticles =>
        let outputData := {| updated_at := now w; articles := processedArticles |} in
        match writeFileSync w latestPath outputData disk with
        | None => (Threw, disk)
        | Some disk1 =>
          match writeFileSync w (archivePath (today w)) outputData disk1 with
          | None => (Threw, disk1)
          | Some disk2 => (Saved, disk2)
          end
        end
      end.
End Pipeline.

End FetchNews.

(** ** The service worker *)

Module Worker.

Definition CACHE_NAME : jsstring := js "ai-news-v2".

Definition ASSETS : list jsstring :=
  [ js "./"; js "./index.html"; js "./style.css"; js "./app.js"; js "./manifest.json" ].

Inductive ResponseType := basic | cors | type_default | error | opaque | opaqueredirect.

Record Response := { status : N; type : ResponseType; body : jsstring }.

#[global] Instance ResponseType_eq_dec : EqDecision ResponseType.
Proof. solve_decision. Defined.

(** A cache maps a request, identified by its URL, to the response stored
    for it.  The cache storage lists the named caches in the order of
    their creation, which is the order [caches.keys] and [caches.match]
    follow. *)
Abbreviation Cache := (gmap jsstring Response).

Abbreviation CacheStorage := (list (jsstring * Cache)).

Definition keys (caches : CacheStorage) : list jsstring := List.map fst caches.

Definition has (caches : CacheStorage) (cacheName : jsstring) : bool :=
  existsb (fun k => JS.eqb k cacheName) (keys caches).

(** [caches.open(cacheName)] creates the cache when it does not exist. *)
Definition open (cacheName : jsstring) (caches : CacheStorage) : CacheStorage :=
  if has caches cacheName then caches else caches ++ [(cacheName, ∅)].

(** [caches.delete(cacheName)] *)
Definition delete (cacheName : jsstring) (caches : CacheStorage) : CacheStorage :=
  List.filter (fun entry => negb (JS.eqb (fst entry) cacheName)) caches.

(** [caches.match(request)]: the first cache, in creation order, that holds
    the request answers; [None] is the undefined of a miss. *)
Fixpoint matchAll (request : jsstring) (caches : CacheStorage) : option Response :=
  match caches with
  | [] => None
  | (_, cache) :: caches' =>
    match cache !! request with
    | Some response => Some response
    | None => matchAll request caches'
    end
  end.

(** [cache.put(request, response)] on the cache named [cacheName]. *)
Definition put (cacheName request : jsstring) (response : Response) (caches : CacheStorage)
  : CacheStorage :=
  List.map (fun entry =>
              if JS.eqb (fst entry) cacheName
              then (fst entry, <[request := response]> (snd entry))
              else entry) caches.

(** What [fetch(request)] comes to. *)
Inductive FetchOutcome :=
  | Rejected
  | Resolved (response : Response).

Definition ok (response : Response) : bool :=
  (200 <=? status response) && (status response <=? 299).

(** What [cache.addAll] accepts: a response that is ok and not partial. *)
Definition storable (response : Response) : bool :=
  ok response && negb (status response =? 206).

(** [cache.addAll(ASSETS)]: every asset is fetched; one failure or one
    response that is not ok, or is partial, rejects the whole and stores
    nothing.  Requests are GET requests and responses carry no Vary
    header. *)
Fixpoint fetchAll (network : jsstring -> FetchOutcome) (urls : list jsstring)
  : option (list (jsstring * Response)) :=
  match urls with
  | [] => Some []
  | u :: urls' =>
    match network u with
    | Resolved response =>
      if storable response
      then (fun l => (u, response) :: l) <$> fetchAll network urls'
      else None
    | Rejected => None
    end
  end.

(** The install listener; the boolean tells whether installation
    succeeded. *)
Definition install (network : jsstring -> FetchOutcome) (caches : CacheStorage)
  : bool * CacheStorage :=
  let caches1 := open CACHE_NAME caches in
  match fetchAll network ASSETS with
  | Some responses =>
    (true, fold_left (fun cs entry => put CACHE_NAME (fst entry) (snd entry) cs)
                     responses caches1)
  | None => (false, caches1)
  end.

(** The activate listener: for each name of [caches.keys()], in turn. *)
Definition activate (caches : CacheStorage) : CacheStorage :=
  fold_left (fun cs cacheName =>
               if negb (JS.eqb cacheName CACHE_NAME) then delete cacheName cs else cs)
            (keys caches) caches.

(** The fetch listener on one request: what [event.respondWith] receives
    ([None]: a promise that rejects or resolves to undefined, no response)
    and the cache storage once the listener's promises have settled. *)
Definition onFetch (network : FetchOutcome) (request : jsstring) (caches : CacheStorage)
  : option Response * CacheStorage :=
  if includes request (js "/data/latest.json") then
    match network with
    | Resolved response =>
      if negb (status response =? 200) || negb (bool_decide (type response = basic))
      then (Some response, caches)
      else (Some response, put CACHE_NAME request response (open CACHE_NAME caches))
    | Rejected => (matchAll request caches, caches)
    end
  else
    match matchAll request caches with
    | Some response => (Some response, caches)
    | None =>
      match network with
      | Resolved response => (Some response, caches)
      | Rejected => (None, caches)
      end
    end.

End Worker.

(** ** A sample engine

    An engine to evaluate the definitions on concrete inputs.  It agrees
    with an ECMAScript host on the inputs the examples below use and, more
    widely:

    - [toLowerCase] and [Canonicalize] on the code units U+0000 to U+00FF
      (above them they leave the code unit as it is);
    - [URL_hostname] on [http://] and [https://] URLs whose host is made of
      labels of lowercase ASCII letters separated by single dots, with or
      without one trailing dot, and ends at the first slash or at the end
      of the URL: the URL parser returns such a host as it is written;
    - [Date_getTime] on the timestamps [YYYY-MM-DDTHH:MM:SSZ] of the news
      API;
    - [JSON_parse] on a flat object whose members are strings without
      escapes.

    Elsewhere its parsers answer [None]. *)

Module Sample.

Definition lower (c : N) : N :=
  if ((0x41 <=? c) && (c <=? 0x5A)) || ((0xC0 <=? c) && (c <=? 0xDE) && negb (c =? 0xD7))
  then c + 0x20 else c.

Definition canonical (c : N) : N :=
  if ((0x61 <=? c) && (c <=? 0x7A)) || ((0xE0 <=? c) && (c <=? 0xFE) && negb (c =? 0xF7))
  then c - 0x20
  else if c =? 0xFF then 0x178
  else if c =? 0xB5 then 0x39C
  else c.

(** *** Host names *)

Definition isLowerLetter (c : N) : bool := (0x61 <=? c) && (c <=? 0x7A).

(** Labels of letters separated by single dots; [afterLetter] tells that
    the code unit before was a letter. *)
Fixpoint labels (afterLetter : bool) (s : jsstring) : bool :=
  match s with
  | [] => afterLetter
  | c :: s' =>
    if isLowerLetter c then labels true s'
    else if c =? ch "." then afterLetter && match s' with [] => true | _ => labels false s' end
    else false
  end.

Fixpoint upToSlash (s : jsstring) : jsstring :=
  match s with
  | [] => []
  | c :: s' => if c =? ch "/" then [] else c :: upToSlash s'
  end.

Definition hostname (u : jsstring) : option jsstring :=
  let authority :=
    if startsWith u (js "https://") then Some (upToSlash (drop 8 u))
    else if startsWith u (js "http://") then Some (upToSlash (drop 7 u))
    else None in
  match authority with
  | Some host => if labels false host then Some host else None
  | None => None
  end.

(** *** Timestamps *)

Definition digit (c : N) : option Z :=
  if (0x30 <=? c) && (c <=? 0x39) then Some (Z.of_N (c - 0x30)) else None.

Fixpoint number (acc : Z) (s : jsstring) : option Z :=
  match s with
  | [] => Some acc
  | c :: s' => d ← digit c; number (10 * acc + d)%Z s'
  end.

Definition isLeap (y : Z) : bool :=
  ((y mod 4 =? 0) && negb (y mod 100 =? 0) || (y mod 400 =? 0))%Z.

Definition daysInMonth (y m : Z) : Z :=
  if (m =? 2)%Z then (if isLeap y then 29 else 28)%Z
  else if ((m =? 4) || (m =? 6) || (m =? 9) || (m =? 11))%Z then 30%Z else 31%Z.

(** Days from 1970-01-01 to the given day of the proleptic Gregorian
    calendar. *)
Definition daysFromCivil (y m d : Z) : Z :=
  let y' := (if m <=? 2 then y - 1 else y)%Z in
  let era := (y' / 400)%Z in
  let yoe := (y' - era * 400)%Z in
  let mp := (if 2 <? m then m - 3 else m + 9)%Z in
  let doy := ((153 * mp + 2) / 5 + d - 1)%Z in
  let doe := (yoe * 365 + yoe / 4 - yoe / 100 + doy)%Z in
  (era * 146097 + doe - 719468)%Z.

Definition field (from len : nat) (s : jsstring) : option Z := number 0 (take len (drop from s)).

Definition separators (s : jsstring) : bool :=
  bool_decide (List.map (fun i => s !! i) [4; 7; 10; 13; 16; 19]%nat
               = List.map Some (js "--T::Z")).

Definition getTime (s : jsstring) : option Z :=
  if (length s =? 20)%nat && separators s then
    y ← field 0 4 s; m ← field 5 2 s; d ← field 8 2 s;
    hh ← field 11 2 s; mm ← field 14 2 s; ss ← field 17 2 s;
    if ((1 <=? m) && (m <=? 12) && (1 <=? d) && (d <=? daysInMonth y m)
        && (hh <=? 23) && (mm <=? 59) && (ss <=? 59))%Z
    then Some ((((daysFromCivil y m d * 24 + hh) * 60 + mm) * 60 + ss) * 1000)%Z
    else None
  else None.

(** *** JSON *)

Definition quote : N := 0x22.

Definition isJsonSpace (c : N) : bool := mem c [0x20; 0x9; 0xA; 0xD].

Fixpoint skipSpace (s : jsstring) : jsstring :=
  match s with
  | c :: s' => if isJsonSpace c then skipSpace s' else s
  | [] => []
  end.

(** The characters of a string up to its closing quote, and what
    follows. *)
Fixpoint stringBody (s : jsstring) : option (jsstring * jsstring) :=
  match s with
  | [] => None
  | c :: s' =>
    if c =? quote then Some ([], s')
    else if (c =? ch "\") || (c <? 0x20) then None
    else '(body, rest) ← stringBody s'; Some (c :: body, rest)
  end.

Definition stringToken (s : jsstring) : option (jsstring * jsstring) :=
  match skipSpace s with
  | c :: s' => if c =? quote then stringBody s' else None
  | [] => None
  end.

Definition expect (c : N) (s : jsstring) : option jsstring :=
  match skipSpace s with
  | d :: s' => if d =? c then Some s' else None
  | [] => None
  end.

(** The members after the opening brace; a later member of the same name
    comes first in the result and so is the one [prop] finds. *)
Fixpoint members (fuel : nat) (acc : list (jsstring * json)) (s : jsstring)
  : option (list (jsstring * json)) :=
  match fuel with
  | O => None
  | S fuel' =>
    '(key, s1) ← stringToken s;
    s2 ← expect (ch ":") s1;
    '(value, s3) ← stringToken s2;
    let acc' := (key, JString value) :: acc in
    match skipSpace s3 with
    | c :: s4 =>
      if c =? ch "," then members fuel' acc' s4
      else if c =? ch "}" then (match skipSpace s4 with [] => Some acc' | _ => None end)
      else None
    | [] => None
    end
  end.

Definition parseJson (s : jsstring) : option json :=
  s1 ← expect (ch "{") s;
  match skipSpace s1 with
  | c :: s2 =>
    if c =? ch "}" then (match skipSpace s2 with [] => Some (JObject []) | _ => None end)
    else JObject <$> members (length s) [] s1
  | [] => None
  end.

#[global] Instance engine : Engine := {|
  toLowerCase := List.map lower;
  Canonicalize := canonical;
  URL_hostname := hostname;
  Date_getTime := getTime;
  JSON_parse := parseJson;
  toLowerCase_empty := eq_refl
|}.

End Sample.

(** ** Sample data *)

Module Examples.
Import RegExp FetchNews.

Definition article (title url : string) : RawArticle :=
  {| title := Some (js title);
     description := None;
     content := None;
     url := Some (js url);
     urlToImage := None;
     publishedAt := None;
     source := Some {| name := Some (js "Example News") |} |}.

Definition sportsRules : FilterRules :=
  {| allow_keywords := [js "ai"]; exclude_domains := []; exclude_keywords := [js "sports"] |}.

Definition sportsArticle : RawArticle :=
  article "AI breakthrough in sports analytics" "https://news.example.com/a".

Definition learningRules : FilterRules :=
  {| allow_keywords := [js "machine learning"]; exclude_domains := []; exclude_keywords := [] |}.

Definition gardeningArticle : RawArticle :=
  article "He said the garden is fine" "https://news.example.com/b".

Definition domainRules : FilterRules :=
  {| allow_keywords := [js "ai"];
     exclude_domains := [js " Example.com "];
     exclude_keywords := [] |}.

Definition dotRules : FilterRules :=
  {| allow_keywords := [js "ai"];
     exclude_domains := [js "example.com"];
     exclude_keywords := [] |}.

Definition dotArticle : RawArticle :=
  article "AI chips" "https://example.com./chips".

Definition dottedEntryRules : FilterRules :=
  {| allow_keywords := [js "ai"];
     exclude_domains := [js "example.com."];
     exclude_keywords := [] |}.

Definition chipsArticle : RawArticle :=
  article "AI chips" "https://example.com/chips".

Definition learningArticle : RawArticle :=
  article "New Machine Learning model released" "https://news.example.com/c".

Definition blankRules : FilterRules :=
  {| allow_keywords := [js "  "]; exclude_domains := []; exclude_keywords := [js "sports"] |}.

Definition blankExcludeRules : FilterRules :=
  {| allow_keywords := [js "machine learning"];
     exclude_domains := [];
     exclude_keywords := [js " "] |}.

Definition dated (title : string) (publishedAt : option string) : RawArticle :=
  {| title := Some (js title);
     description := None;
     content := None;
     url := Some (js "https://news.example.com/a");
     urlToImage := None;
     publishedAt := js <$> publishedAt;
     source := Some {| name := Some (js "Example News") |} |}.

Definition quoted (s : string) : jsstring := Sample.quote :: js s ++ [Sample.quote].

(** A reply of the model inside a fenced block. *)
Definition reply : jsstring :=
  js "```json {" ++ quoted "title_ja" ++ js ":" ++ quoted "T" ++ js ","
     ++ quoted "summary_ja" ++ js ":" ++ quoted "S" ++ js "} ```".

(** A run that meets six articles; the model answers its first call and
    fails afterwards. *)
Definition world : World :=
  {| http := Responded [ dated "AI chips" (Some "2024-05-01T10:00:00Z"%string);
                         dated "[Removed]" (Some "2024-05-01T11:00:00Z"%string);
                         dated "Open AI models" (Some "2024-05-01T12:00:00Z"%string);
                         dated "Gardening tips" (Some "2024-05-01T13:00:00Z"%string);
                         dated "AI in sports" (Some "2024-05-01T14:00:00Z"%string);
                         dated "AI undated" None ];
     model := fun n => match n with
                       | O => Replied reply
                       | _ => CallFails
                       end;
     today := js "2024-05-02";
     now := js "2024-05-01T22:30:00.000Z";
     writable := fun _ => true |}.

(** Cache storage after two deployments. *)
Definition page : Worker.Response :=
  {| Worker.status := 200; Worker.type := Worker.basic;
     Worker.body := js "<html>" |}.

Definition fresh : Worker.Response :=
  {| Worker.status := 200; Worker.type := Worker.basic;
     Worker.body := js "{}" |}.

Definition twoCaches : Worker.CacheStorage :=
  [ (js "ai-news-v1", {[ js "./" := page ]});
    (Worker.CACHE_NAME, {[ js "./" := page ]}) ].

Definition dataRequest : jsstring := js "https://app.example.com/data/latest.json".

(** Cache storage whose older cache holds a file the current one lacks. *)
Definition staleCaches : Worker.CacheStorage :=
  [ (js "ai-news-v1", {[ js "./old.css" := page ]});
    (Worker.CACHE_NAME, {[ js "./" := page ]}) ].

(** A run that meets two undated articles around a dated one. *)
Definition undatedWorld : World :=
  {| http := Responded [ dated "AI first" None;
                         dated "AI chips" (Some "2024-05-01T10:00:00Z"%string);
                         dated "AI second" None ];
     model := fun _ => CallFails;
     today := js "2024-05-02";
     now := js "2024-05-01T22:30:00.000Z";
     writable := fun _ => true |}.

(** A run that meets an article without a source. *)
Definition sourceless : RawArticle :=
  {| title := Some (js "AI without a source");
     description := None;
     content := None;
     url := None;
     urlToImage := None;
     publishedAt := None;
     source := None |}.

Definition sourcelessWorld : World :=
  {| http := Responded [ dated "AI chips" (Some "2024-05-01T10:00:00Z"%string); sourceless ];
     model := fun _ => CallFails;
     today := js "2024-05-02";
     now := js "2024-05-01T22:30:00.000Z";
     writable := fun _ => true |}.

(** A run whose request to the news API fails. *)
Definition offline : World :=
  {| http := RequestFails;
     model := fun _ => CallFails;
     today := js "2024-05-02";
     now := js "2024-05-01T22:30:00.000Z";
     writable := fun _ => true |}.

End Examples.

Import RegExp FetchNews.

(** ** Vocabulary of the properties *)

Section Vocabulary.
Context `{Engine}.

(** The pattern read off the lowercased, trimmed term: one atom for a
    code unit that is not whitespace, one [\s+] for a run of whitespace. *)
Fixpoint termPattern (inRun : bool) (t : jsstring) : RegExp.pattern :=
  match t with
  | [] => []
  | c :: t' =>
    if isWhiteSpace c
    then (if inRun then [] else [AtomPlus WhiteSpaceSet]) ++ termPattern true t'
    else Atom [c] :: termPattern false t'
  end.

Definition noPlus (s : jsstring) : Prop := head s <> Some (ch "+").

Definition bounded (short : bool) (p : RegExp.pattern) : RegExp.pattern :=
  if short then Assertion_b :: p ++ [Assertion_b] else p.

(** Two code units the [i] flag does not tell apart. *)
Definition sameLetter (c x : N) : Prop := Canonicalize c = Canonicalize x.

(** A code unit [\s] accepts under the [i] flag. *)
Definition spaceLike (x : N) : Prop := accepts WhiteSpaceSet x = true.

(** [occurrence inRun t m]: the text [m] is an occurrence of the term [t].
    A code unit of [t] that is not whitespace stands for any code unit
    with the same canonical form; a run of whitespace of [t] stands for
    any non-empty run of whitespace.  [inRun] tells that the run of
    whitespace [t] starts with, if any, has found its text already. *)
Inductive occurrence : bool -> jsstring -> jsstring -> Prop :=
  | occ_end inRun : occurrence inRun [] []
  | occ_letter inRun c x t m :
      isWhiteSpace c = false -> sameLetter c x ->
      occurrence false t m -> occurrence inRun (c :: t) (x :: m)
  | occ_space c t v m :
      isWhiteSpace c = true -> v <> [] -> Forall spaceLike v ->
      occurrence true t m -> occurrence false (c :: t) (v ++ m)
  | occ_run c t m :
      isWhiteSpace c = true ->
      occurrence true t m -> occurrence true (c :: t) m.

(** The code unit before the position reached after reading [s]. *)
Definition lastOr (prev : option N) (s : jsstring) : option N :=
  match last s with
  | Some x => Some x
  | None => prev
  end.

(** The matcher and the exclusion test as the specification words them. *)

(** A term taken letter by letter. *)
Definition literalPattern (term : jsstring) : RegExp.pattern :=
  List.map (fun c => Atom [c]) term.

(** Whole words for a term of at most three code units, a plain
    case-insensitive substring for a longer one. *)
Definition matcherAsSpecified (term : jsstring) : RegExp.pattern :=
  bounded (length term <=? 3)%nat (literalPattern term).

Definition stripTrailingDot (s : jsstring) : jsstring :=
  match reverse s with
  | c :: r => if c =? ch "." then reverse r else s
  | [] => s
  end.

(** The host name equals the entry or is a subdomain of it, both taken
    in lower case and without a trailing dot. *)
Definition coveredAsSpecified (hostname entry : jsstring) : bool :=
  let h := stripTrailingDot (toLowerCase hostname) in
  let e := stripTrailingDot (toLowerCase entry) in
  JS.eqb h e || endsWith h (ch "." :: e).

(** The reply as handed to [JSON.parse]. *)
Definition cleaned (reply : jsstring) : jsstring :=
  stripFenceEnd (stripFenceStart (trim reply)).

(** The field is absent from the reply, or holds a falsy value. *)
Definition missing (v : json) (key : jsstring) : bool :=
  match prop v key with
  | Some x => negb (json_truthy x)
  | None => true
  end.

(** The failures of a summarisation: the call fails, the reply is not
    JSON, the reply lacks the two fields. *)
Inductive summarizationFails : ModelOutcome -> Prop :=
  | transport_error : summarizationFails CallFails
  | not_json reply :
      JSON_parse (cleaned reply) = None -> summarizationFails (Replied reply)
  | fields_missing reply v :
      JSON_parse (cleaned reply) = Some v ->
      missing v (js "title_ja") = true -> missing v (js "summary_ja") = true ->
      summarizationFails (Replied reply).

(** The description, else the title, else the fixed message. *)
Definition fallbackBase (article : RawArticle) : jsstring :=
  match description article, title article with
  | Some (c :: d), _ => c :: d
  | _, Some (c :: t) => c :: t
  | _, _ => unavailableMessage
  end.

(** The publish time the sort goes by; a missing timestamp counts as the
    epoch. *)
Definition timeOf (publishedAt : option jsstring) : Z := default 0%Z (getTime publishedAt).

(** Every timestamp present is one the date parser accepts. *)
Definition datesValid (articles : list RawArticle) : Prop :=
  Forall (fun a => is_Some (getTime (publishedAt a))) articles.

Definition newestFirst (processed : list ProcessedArticle) : Prop :=
  StronglySorted (fun p q => (timeOf (published_at q) <= timeOf (published_at p))%Z)
                 processed.

Definition descendingBy {A : Type} (key : A -> Z) (a b : A) : Prop := (key b <= key a)%Z.
End Vocabulary.

(** * Properties *)

(** ** Code units and strings *)

Lemma mem_In (c : N) (A : list N) : mem c A = true <-> In c A.
Proof.
  unfold mem. rewrite existsb_exists. split.
  - intros (x & Hx & Heq). apply N.eqb_eq in Heq. now subst.
  - intros Hin. exists c. split; [assumption | apply N.eqb_refl].
Qed.

Lemma syntax_not_whitespace (c : N) :
  isSyntaxCharacter c = true -> isWhiteSpace c = false.
Proof.
  unfold isSyntaxCharacter. rewrite mem_In. cbn.
  intros Hc. repeat (destruct Hc as [<- | Hc]; [reflexivity |]). destruct Hc.
Qed.

Lemma whitespace_not_syntax (c : N) :
  isWhiteSpace c = true -> isSyntaxCharacter c = false.
Proof.
  intros Hws. destruct (isSyntaxCharacter c) eqn:Hs; [| reflexivity].
  apply syntax_not_whitespace in Hs. congruence.
Qed.

Lemma trimStart_whitespace (s : jsstring) :
  forallb isWhiteSpace s = true -> trimStart s = [].
Proof.
  induction s as [| c s IH]; cbn; [reflexivity |].
  intros Hs. apply andb_prop in Hs as [Hc Hs]. rewrite Hc. auto.
Qed.

Lemma trim_whitespace (s : jsstring) :
  forallb isWhiteSpace s = true -> trim s = [].
Proof.
  intros Hs. unfold trim, trimEnd. now rewrite (trimStart_whitespace s Hs).
Qed.

Lemma eqb_true (s t : jsstring) : JS.eqb s t = true <-> s = t.
Proof. unfold JS.eqb. apply bool_decide_eq_true. Qed.

Lemma startsWith_prefix (s p : jsstring) : startsWith s p = true <-> p `prefix_of` s.
Proof.
  revert s. induction p as [| a p IH]; intros s; cbn.
  - split; [intros _; apply prefix_nil | now destruct s].
  - destruct s as [| b s]; cbn.
    + split; [discriminate | intros Hp; now apply prefix_nil_inv in Hp].
    + rewrite andb_true_iff, N.eqb_eq, IH. split.
      * intros [-> Hp]. now apply prefix_cons.
      * intros Hp. split; [now apply prefix_cons_inv_1 in Hp | now apply prefix_cons_inv_2 in Hp].
Qed.

Lemma endsWith_suffix (s p : jsstring) : endsWith s p = true <-> p `suffix_of` s.
Proof.
  unfold endsWith. rewrite startsWith_prefix. symmetry. apply suffix_prefix_reverse.
Qed.

(** ** The sources [buildTermPattern] compiles *)

Section Compilation.

Lemma parse_character (c : N) (rest : jsstring) :
  isSyntaxCharacter c = false -> noPlus rest ->
  parse (c :: rest) = (fun p => Atom [c] :: p) <$> parse rest.
Proof.
  intros Hc Hrest. cbn [parse].
  destruct (c =? ch "\") eqn:Hb.
  { apply N.eqb_eq in Hb. subst c. discriminate Hc. }
  rewrite Hc. destruct rest as [| q rest']; [reflexivity |].
  destruct (q =? ch "+") eqn:Hq; [| reflexivity].
  apply N.eqb_eq in Hq. subst q. now contradiction Hrest.
Qed.

Lemma parse_escaped (c : N) (rest : jsstring) :
  isSyntaxCharacter c = true -> noPlus rest ->
  parse (ch "\" :: c :: rest) = (fun p => Atom [c] :: p) <$> parse rest.
Proof.
  intros Hc Hrest. cbn [parse]. rewrite N.eqb_refl.
  destruct (c =? ch "b") eqn:Hb.
  { apply N.eqb_eq in Hb. subst c. discriminate Hc. }
  destruct (c =? ch "s") eqn:Hs.
  { apply N.eqb_eq in Hs. subst c. discriminate Hc. }
  rewrite Hc. destruct rest as [| q rest']; [reflexivity |].
  destruct (q =? ch "+") eqn:Hq; [| reflexivity].
  apply N.eqb_eq in Hq. subst q. now contradiction Hrest.
Qed.

Lemma parse_whitespace_plus (rest : jsstring) :
  parse (js "\s+" ++ rest) = (fun p => AtomPlus WhiteSpaceSet :: p) <$> parse rest.
Proof. reflexivity. Qed.

Lemma parse_boundary (rest : jsstring) :
  parse (js "\b" ++ rest) = (fun p => Assertion_b :: p) <$> parse rest.
Proof. reflexivity. Qed.

Lemma noPlus_source (inRun : bool) (t tail : jsstring) :
  noPlus tail -> noPlus (replaceWhitespaceRuns inRun (escapeRegExp t) ++ tail).
Proof.
  revert inRun. induction t as [| c t IH]; intros inRun Htail; [exact Htail |].
  unfold escapeRegExp. cbn [flat_map]. fold (escapeRegExp t).
  destruct (isSyntaxCharacter c) eqn:Hc.
  - cbn. discriminate.
  - cbn [app replaceWhitespaceRuns]. destruct (isWhiteSpace c) eqn:Hw.
    + destruct inRun; [now apply IH | cbn; discriminate].
    + unfold noPlus. cbn. intros [= ->]. discriminate Hc.
Qed.

(** The source built from a term always parses, and to the pattern read
    off the term. *)
Lemma parse_source (t : jsstring) :
  forall (inRun : bool) (tail : jsstring) (q : RegExp.pattern),
    noPlus tail -> parse tail = Some q ->
    parse (replaceWhitespaceRuns inRun (escapeRegExp t) ++ tail)
    = Some (termPattern inRun t ++ q).
Proof.
  induction t as [| c t IH]; intros inRun tail q Htail Hq; [exact Hq |].
  unfold escapeRegExp. cbn [flat_map]. fold (escapeRegExp t).
  destruct (isSyntaxCharacter c) eqn:Hc.
  - pose proof (syntax_not_whitespace c Hc) as Hw.
    cbn [app replaceWhitespaceRuns termPattern]. rewrite Hw.
    change (isWhiteSpace (ch "\")) with false. cbn [app].
    rewrite parse_escaped by (assumption || now apply noPlus_source).
    now rewrite (IH false tail q Htail Hq).
  - cbn [app replaceWhitespaceRuns termPattern]. destruct (isWhiteSpace c) eqn:Hw.
    + destruct inRun.
      * cbn [app]. now apply IH.
      * rewrite <- app_assoc, parse_whitespace_plus.
        now rewrite (IH true tail q Htail Hq).
    + cbn [app]. rewrite parse_character by (assumption || now apply noPlus_source).
      now rewrite (IH false tail q Htail Hq).
Qed.

End Compilation.

Section TermPatterns.
Context `{Engine}.

Lemma regexSource_parses (term : jsstring) :
  parse (regexSource term)
  = Some (bounded (isShortWord term) (termPattern false (toLowerCase (trim term)))).
Proof.
  unfold regexSource, bounded. destruct (isShortWord term).
  - rewrite parse_boundary.
    rewrite (parse_source _ false (js "\b") [Assertion_b]);
      [reflexivity | discriminate | reflexivity].
  - rewrite <- (app_nil_r (replaceWhitespaceRuns _ _)).
    rewrite (parse_source _ false [] []); [now rewrite app_nil_r | discriminate | reflexivity].
Qed.

Lemma buildTermPattern_eq (term : jsstring) :
  buildTermPattern term
  = bounded (isShortWord term) (termPattern false (toLowerCase (trim term))).
Proof. unfold buildTermPattern. now rewrite regexSource_parses. Qed.

End TermPatterns.

(** ** What a term's pattern matches *)

Section Matching.
Context `{Engine}.

Lemma lastOr_cons prev x s : lastOr prev (x :: s) = lastOr (Some x) s.
Proof.
  unfold lastOr. destruct s as [| y s]; [reflexivity |].
  rewrite last_cons. now destruct (last (y :: s)).
Qed.

Lemma lastOr_app prev s1 s2 : lastOr prev (s1 ++ s2) = lastOr (lastOr prev s1) s2.
Proof.
  revert prev. induction s1 as [| x s1 IH]; intros prev; [reflexivity |].
  cbn [app]. now rewrite !lastOr_cons, IH.
Qed.

Lemma lastOr_None s : lastOr None s = last s.
Proof. unfold lastOr. now destruct (last s). Qed.

Lemma lastOr_last s1 s2 : lastOr (last s1) s2 = last (s1 ++ s2).
Proof. now rewrite <- (lastOr_None s1), <- lastOr_app, lastOr_None. Qed.

Lemma accepts_singleton c x : accepts [c] x = true <-> sameLetter c x.
Proof. unfold accepts, sameLetter. cbn. now rewrite orb_false_r, N.eqb_eq. Qed.

Lemma plus_spec (A : list N) (k : option N -> jsstring -> bool) (s : jsstring) :
  plus A k s = true <->
  exists v rest, s = v ++ rest /\ v <> [] /\ Forall (fun x => accepts A x = true) v
                 /\ k (last v) rest = true.
Proof.
  induction s as [| x s IH]; cbn [plus].
  - split; [discriminate |].
    intros (v & rest & Hs & Hv & _). symmetry in Hs. apply app_eq_nil in Hs as [-> _].
    now contradiction Hv.
  - rewrite andb_true_iff, orb_true_iff, IH. split.
    + intros [Hx [Hk | (v & rest & -> & Hv & Hall & Hk)]].
      * exists [x], s. repeat split; [discriminate | now constructor | exact Hk].
      * exists (x :: v), rest. repeat split; [discriminate | now constructor |].
        destruct v as [| y v]; [now contradiction Hv | now rewrite last_cons_cons].
    + intros (v & rest & Hs & Hv & Hall & Hk).
      destruct v as [| y v]; [now contradiction Hv |].
      cbn [app] in Hs. injection Hs as <- ->. inversion Hall as [| ? ? Hy Hall']; subst.
      split; [exact Hy |].
      destruct v as [| z v]; [now left |].
      right. exists (z :: v), rest. repeat split; [discriminate | exact Hall' |].
      now rewrite last_cons_cons in Hk.
Qed.

(** The matcher on the pattern of a term, followed by any pattern [q]. *)
Lemma matchHere_termPattern (t : jsstring) :
  forall (inRun : bool) (q : RegExp.pattern) (prev : option N) (s : jsstring),
    matchHere (termPattern inRun t ++ q) prev s = true <->
    exists mid rest, s = mid ++ rest /\ occurrence inRun t mid
                     /\ matchHere q (lastOr prev mid) rest = true.
Proof.
  induction t as [| c t IH]; intros inRun q prev s.
  - cbn [termPattern app]. split.
    + intros Hq. exists [], s. repeat split; [constructor | exact Hq].
    + intros (mid & rest & -> & Hocc & Hq). inversion Hocc; subst. exact Hq.
  - cbn [termPattern]. destruct (isWhiteSpace c) eqn:Hw.
    + destruct inRun; cbn [app].
      * rewrite IH. split.
        -- intros (mid & rest & -> & Hocc & Hq). exists mid, rest.
           repeat split; [now apply occ_run | exact Hq].
        -- intros (mid & rest & -> & Hocc & Hq). exists mid, rest.
           inversion Hocc; subst; [congruence |]. now repeat split.
      * cbn [matchHere]. rewrite plus_spec. split.
        -- intros (v & rest & -> & Hv & Hall & Hk).
           apply IH in Hk as (mid & rest' & -> & Hocc & Hq).
           exists (v ++ mid), rest'. rewrite <- app_assoc. repeat split.
           ++ now apply occ_space.
           ++ rewrite lastOr_app. unfold lastOr at 2.
              destruct (last v) eqn:Hlast; [exact Hq |].
              apply last_None in Hlast. now contradiction Hv.
        -- intros (mid & rest & -> & Hocc & Hq).
           inversion Hocc as [| | c' t' v m Hc Hv Hall Hocc' |]; subst; [congruence |].
           exists v, (m ++ rest). rewrite <- app_assoc. repeat split; [exact Hv | exact Hall |].
           apply IH. exists m, rest. repeat split; [exact Hocc' |].
           rewrite lastOr_app in Hq. unfold lastOr at 2 in Hq.
           destruct (last v) eqn:Hlast; [exact Hq |].
           apply last_None in Hlast. now contradiction Hv.
    + cbn [app matchHere]. destruct s as [| x s].
      * split; [discriminate |].
        intros (mid & rest & Hs & Hocc & _). inversion Hocc; subst; try congruence.
        discriminate Hs.
      * rewrite andb_true_iff, accepts_singleton, IH. split.
        -- intros [Hx (mid & rest & -> & Hocc & Hq)]. exists (x :: mid), rest.
           repeat split; [now apply occ_letter | now rewrite lastOr_cons].
        -- intros (mid & rest & Hs & Hocc & Hq).
           inversion Hocc; subst; try congruence.
           cbn [app] in Hs. injection Hs as <- ->. split; [assumption |].
           eexists _, rest. repeat split; [eassumption | now rewrite lastOr_cons in Hq].
Qed.

Lemma search_spec (p : RegExp.pattern) (prev : option N) (s : jsstring) :
  search p prev s = true <->
  exists pre rest, s = pre ++ rest /\ matchHere p (lastOr prev pre) rest = true.
Proof.
  revert prev. induction s as [| x s IH]; intros prev; cbn [search].
  - rewrite orb_false_r. split.
    + intros Hm. now exists [], [].
    + intros (pre & rest & Hs & Hm). symmetry in Hs.
      apply app_eq_nil in Hs as [-> ->]. exact Hm.
  - rewrite orb_true_iff, IH. split.
    + intros [Hm | (pre & rest & -> & Hm)].
      * now exists [], (x :: s).
      * exists (x :: pre), rest. split; [reflexivity | now rewrite lastOr_cons].
    + intros (pre & rest & Hs & Hm). destruct pre as [| y pre].
      * left. cbn in Hs. now subst rest.
      * right. cbn [app] in Hs. injection Hs as <- ->.
        exists pre, rest. split; [reflexivity | now rewrite lastOr_cons in Hm].
Qed.

(** The empty pattern matches every text. *)
Lemma test_empty_pattern (text : jsstring) : test [] text = true.
Proof. unfold test. now destruct text. Qed.

(** A term without whitespace occurs letter by letter. *)
Lemma occurrence_letters (t m : jsstring) (inRun : bool) :
  List.forallb (fun c => negb (isWhiteSpace c)) t = true ->
  occurrence inRun t m <-> Forall2 sameLetter t m.
Proof.
  intros Hletters. revert m inRun.
  induction t as [| c t IH]; intros m inRun.
  - split; intros Hm; inversion Hm; constructor.
  - cbn [forallb] in Hletters. apply andb_prop in Hletters as [Hc Ht].
    apply negb_true_iff in Hc. split.
    + intros Hocc. inversion Hocc; subst; try congruence.
      constructor; [assumption |]. now apply (IH Ht _ false).
    + intros Hm. inversion Hm; subst.
      apply occ_letter; [assumption | assumption |]. now apply IH.
Qed.

End Matching.

(** ** The relevance classifier *)

Section ClassifierFacts.
Context `{Engine}.

Lemma findMatchedTerms_length (text : jsstring) (matchers : list Matcher) :
  length (findMatchedTerms text matchers)
  = length (List.filter (fun m => test (pattern m) text) matchers).
Proof. unfold findMatchedTerms. apply length_map. Qed.

Lemma no_hit (text : jsstring) (matchers : list Matcher) :
  (forall m, In m matchers -> test (pattern m) text = false) ->
  length (findMatchedTerms text matchers) = 0%nat.
Proof.
  intros Hnone. rewrite findMatchedTerms_length.
  induction matchers as [| m ms IH]; [reflexivity |].
  cbn [List.filter]. rewrite (Hnone m (or_introl eq_refl)).
  apply IH. intros m' Hin. apply Hnone. now right.
Qed.

Lemma some_hit (text : jsstring) (matchers : list Matcher) :
  (exists m, In m matchers /\ test (pattern m) text = true) ->
  (0 < length (findMatchedTerms text matchers))%nat.
Proof.
  intros (m & Hin & Hm). rewrite findMatchedTerms_length.
  assert (Hf : In m (List.filter (fun m => test (pattern m) text) matchers))
    by (apply filter_In; now split).
  destruct (List.filter _ matchers); [destruct Hf | cbn; lia].
Qed.

Lemma isExcludedDomain_true (rules : FilterRules) (u h domain : jsstring) :
  u <> [] -> URL_hostname u = Some h -> toLowerCase h <> [] ->
  In domain (exclude_domains rules) ->
  toLowerCase h = trim (toLowerCase domain)
  \/ (ch "." :: trim (toLowerCase domain)) `suffix_of` toLowerCase h ->
  isExcludedDomain rules (Some u) = true.
Proof.
  intros Hu Hh Hhost Hin Hcover. unfold isExcludedDomain, extractHost.
  destruct u as [| c u]; [now contradiction Hu |]. rewrite Hh.
  destruct (toLowerCase h) as [| x host] eqn:Hlow; [now contradiction Hhost |].
  apply existsb_exists. exists domain. split; [exact Hin |].
  apply orb_true_iff. destruct Hcover as [Heq | Hsuf].
  - left. now apply eqb_true.
  - right. now apply endsWith_suffix.
Qed.

Lemma blank_term_pattern (term : jsstring) :
  forallb isWhiteSpace term = true -> buildTermPattern term = [].
Proof.
  intros Hblank. rewrite buildTermPattern_eq.
  unfold isShortWord. rewrite (trim_whitespace term Hblank), toLowerCase_empty.
  reflexivity.
Qed.

End ClassifierFacts.



(** ** Claims on the classifier *)

(** C1: an article whose combined text matches at least one allow matcher
    and at least one exclude matcher is rejected, whatever the allow terms
    that matched. *)
Theorem exclusion_wins `{Engine} (rules : FilterRules) (article : RawArticle) :
  (exists m, In m (allowKeywordMatchers rules)
             /\ test (pattern m) (combinedText article) = true) ->
  (exists m, In m (excludeKeywordMatchers rules)
             /\ test (pattern m) (combinedText article) = true) ->
  isAiRelatedArticle rules article = false.
Proof.
  intros _ Hexclude. unfold isAiRelatedArticle.
  destruct (isExcludedDomain rules (url article)); [reflexivity |].
  destruct (length (findMatchedTerms _ (allowKeywordMatchers rules)) =? 0)%nat; [reflexivity |].
  apply some_hit in Hexclude. apply Nat.ltb_lt in Hexclude. rewrite Hexclude.
  now destruct (forallb _ _).
Qed.

Lemma exclusion_wins_witness :
  (exists m, In m (allowKeywordMatchers Examples.sportsRules)
             /\ test (pattern m) (combinedText Examples.sportsArticle) = true)
  /\ (exists m, In m (excludeKeywordMatchers Examples.sportsRules)
                /\ test (pattern m) (combinedText Examples.sportsArticle) = true)
  /\ isAiRelatedArticle Examples.sportsRules Examples.sportsArticle = false.
Proof.
  assert (Ha : exists m, In m (allowKeywordMatchers Examples.sportsRules)
                         /\ test (pattern m) (combinedText Examples.sportsArticle) = true)
    by (eexists; split; [left; reflexivity | vm_compute; reflexivity]).
  assert (He : exists m, In m (excludeKeywordMatchers Examples.sportsRules)
                         /\ test (pattern m) (combinedText Examples.sportsArticle) = true)
    by (eexists; split; [left; reflexivity | vm_compute; reflexivity]).
  exact (conj Ha (conj He (exclusion_wins _ _ Ha He))).
Defined.

(** C2: an article whose combined text matches no allow matcher is
    rejected; the loader answers a read or parse failure with the empty
    rules, under which every article is rejected. *)
Theorem fail_closed `{Engine} (rules : FilterRules) (article : RawArticle) :
  (forall m, In m (allowKeywordMatchers rules)
             -> test (pattern m) (combinedText article) = false) ->
  isAiRelatedArticle rules article = false
  /\ loadFilterRules Unreadable = emptyRules
  /\ loadFilterRules Malformed = emptyRules
  /\ isAiRelatedArticle emptyRules article = false.
Proof.
  assert (Hreject : forall r, (forall m, In m (allowKeywordMatchers r)
                                 -> test (pattern m) (combinedText article) = false)
                              -> isAiRelatedArticle r article = false).
  { intros r Hnone. unfold isAiRelatedArticle.
    destruct (isExcludedDomain r (url article)); [reflexivity |].
    now rewrite (no_hit _ _ Hnone). }
  intros Hnone. repeat split; [now apply Hreject | ].
  apply Hreject. intros m [].
Qed.

Lemma fail_closed_witness :
  (forall m, In m (allowKeywordMatchers Examples.sportsRules)
             -> test (pattern m) (combinedText Examples.gardeningArticle) = false)
  /\ isAiRelatedArticle Examples.sportsRules Examples.gardeningArticle = false.
Proof.
  assert (Hnone : forall m, In m (allowKeywordMatchers Examples.sportsRules)
                            -> test (pattern m) (combinedText Examples.gardeningArticle) = false)
    by (intros m [<- | []]; vm_compute; reflexivity).
  exact (conj Hnone (proj1 (fail_closed _ _ Hnone))).
Defined.

(** C3, as the code has it: an article whose URL is a non-empty string the
    URL parser accepts, with a non-empty host name that in lower case
    equals the lowercased and whitespace-trimmed form of an entry of
    exclude_domains, or ends with a dot followed by that form, is rejected
    whatever the keywords.  A trailing dot is not removed on either
    side. *)
Theorem excluded_domain_rejected `{Engine}
        (rules : FilterRules) (article : RawArticle) (u h domain : jsstring) :
  url article = Some u -> u <> [] ->
  URL_hostname u = Some h -> toLowerCase h <> [] ->
  In domain (exclude_domains rules) ->
  toLowerCase h = trim (toLowerCase domain)
  \/ (ch "." :: trim (toLowerCase domain)) `suffix_of` toLowerCase h ->
  isAiRelatedArticle rules article = false.
Proof.
  intros Hurl Hu Hh Hhost Hin Hcover. unfold isAiRelatedArticle.
  now rewrite Hurl, (isExcludedDomain_true rules u h domain).
Qed.

Lemma excluded_domain_rejected_witness :
  isAiRelatedArticle Examples.domainRules Examples.sportsArticle = false.
Proof.
  apply (excluded_domain_rejected Examples.domainRules Examples.sportsArticle
           (js "https://news.example.com/a") (js "news.example.com") (js " Example.com ")).
  - reflexivity.
  - discriminate.
  - vm_compute. reflexivity.
  - vm_compute. discriminate.
  - left. reflexivity.
  - right. exists (js "news"). vm_compute. reflexivity.
Defined.

(** C3, as stated, fails: the host name [example.com] is the entry
    [example.com.] once trailing dots are put aside, and the article is
    accepted. *)
Lemma trailing_dot_entry_not_excluded :
  url Examples.chipsArticle = Some (js "https://example.com/chips")
  /\ URL_hostname (js "https://example.com/chips") = Some (js "example.com")
  /\ In (js "example.com.") (exclude_domains Examples.dottedEntryRules)
  /\ coveredAsSpecified (js "example.com") (js "example.com.") = true
  /\ isAiRelatedArticle Examples.dottedEntryRules Examples.chipsArticle = true.
Proof.
  repeat split; try (vm_compute; reflexivity). left. reflexivity.
Qed.

(** The same with the dot on the side of the URL: the URL parser keeps the
    trailing dot of a host name. *)
Example trailing_dot_host_not_excluded :
  URL_hostname (js "https://example.com./chips") = Some (js "example.com.")
  /\ coveredAsSpecified (js "example.com.") (js "example.com") = true
  /\ isAiRelatedArticle Examples.dotRules Examples.dotArticle = true.
Proof. repeat split; vm_compute; reflexivity. Qed.

(** C4, as the code has it: the matcher of a term accepts a text exactly
    when the text holds an occurrence of the trimmed, lowercased term: code
    unit for code unit up to case, each run of whitespace of the term
    standing for any non-empty run of whitespace, every other code unit,
    syntax characters included, standing for itself.  When the trimmed
    term is one to three letters or digits, and only then, the occurrence
    must lie between two word boundaries. *)
Theorem term_matcher_meaning `{Engine} (term text : jsstring) :
  test (buildTermPattern term) text = true <->
  exists pre mid post,
    text = pre ++ mid ++ post
    /\ occurrence false (toLowerCase (trim term)) mid
    /\ (if isShortWord term
        then boundary (last pre) (head (mid ++ post)) = true
             /\ boundary (last (pre ++ mid)) (head post) = true
        else True).
Proof.
  rewrite buildTermPattern_eq. unfold test. rewrite search_spec.
  unfold bounded. destruct (isShortWord term).
  - split.
    + intros (pre & rest & -> & Hm). cbn [matchHere] in Hm.
      apply andb_prop in Hm as [Hb1 Hm].
      apply matchHere_termPattern in Hm as (mid & post & -> & Hocc & Hb2).
      cbn [matchHere] in Hb2. rewrite andb_true_r in Hb2.
      exists pre, mid, post. rewrite lastOr_None in Hb1, Hb2.
      rewrite lastOr_last in Hb2. now repeat split.
    + intros (pre & mid & post & -> & Hocc & Hb1 & Hb2).
      exists pre, (mid ++ post). split; [reflexivity |].
      cbn [matchHere]. rewrite lastOr_None, Hb1. cbn [andb].
      apply matchHere_termPattern. exists mid, post. repeat split; [exact Hocc |].
      cbn [matchHere]. now rewrite andb_true_r, lastOr_last.
  - split.
    + intros (pre & rest & -> & Hm).
      rewrite <- (app_nil_r (termPattern _ _)) in Hm.
      apply matchHere_termPattern in Hm as (mid & post & -> & Hocc & _).
      now exists pre, mid, post.
    + intros (pre & mid & post & -> & Hocc & _).
      exists pre, (mid ++ post). split; [reflexivity |].
      rewrite <- (app_nil_r (termPattern _ _)).
      apply matchHere_termPattern. now exists mid, post.
Qed.

(** C4, as stated, fails twice.  The term [c#] has two code units and is
    found inside [abc#d], where no word boundary precedes it.  The term
    [machine learning] is found in a text that has two spaces between the
    words and so does not contain the term. *)
Lemma matcher_not_as_specified :
  (length (js "c#") <= 3)%nat
  /\ test (buildTermPattern (js "c#")) (js "abc#d") = true
  /\ test (matcherAsSpecified (js "c#")) (js "abc#d") = false
  /\ (3 < length (js "machine learning"))%nat
  /\ test (buildTermPattern (js "machine learning")) (js "machine  learning") = true
  /\ test (matcherAsSpecified (js "machine learning")) (js "machine  learning") = false
  /\ includes (js "machine  learning") (js "machine learning") = false.
Proof.
  repeat split; try (vm_compute; reflexivity); cbn; lia.
Qed.

(** The examples of the specification. *)
Example ai_not_inside_said :
  test (buildTermPattern (js "ai")) (js "said") = false
  /\ test (buildTermPattern (js "ai")) (js "he said ai matters") = true.
Proof. split; vm_compute; reflexivity. Qed.

Example sports_article_rejected :
  isAiRelatedArticle Examples.sportsRules Examples.sportsArticle = false.
Proof. vm_compute. reflexivity. Qed.

Example learning_article_accepted :
  isAiRelatedArticle Examples.learningRules Examples.learningArticle = true.
Proof. vm_compute. reflexivity. Qed.

(** A term that is not a short word and has no whitespace is looked for as
    a substring, up to case. *)
Lemma whitespace_free_term `{Engine} (term text : jsstring) :
  isShortWord term = false ->
  List.forallb (fun c => negb (isWhiteSpace c)) (toLowerCase (trim term)) = true ->
  test (buildTermPattern term) text = true <->
  exists pre mid post,
    text = pre ++ mid ++ post /\ Forall2 sameLetter (toLowerCase (trim term)) mid.
Proof.
  intros Hlong Hletters. rewrite buildTermPattern_eq, Hlong. cbn [bounded].
  unfold test. rewrite search_spec. split.
  - intros (pre & rest & -> & Hm).
    rewrite <- (app_nil_r (termPattern _ _)) in Hm.
    apply matchHere_termPattern in Hm as (mid & post & -> & Hocc & _).
    exists pre, mid, post. split; [reflexivity | now apply (occurrence_letters _ _ false)].
  - intros (pre & mid & post & -> & Hmid).
    exists pre, (mid ++ post). split; [reflexivity |].
    rewrite <- (app_nil_r (termPattern _ _)).
    apply matchHere_termPattern. exists mid, post.
    repeat split. now apply occurrence_letters.
Qed.

(** C10: a blank allow keyword compiles to a pattern that matches every
    text, and then every article with no excluded domain and no exclude
    keyword in its text is accepted. *)
Theorem blank_allow_keyword_opens `{Engine}
        (rules : FilterRules) (term : jsstring) (article : RawArticle) :
  In term (allow_keywords rules) ->
  forallb isWhiteSpace term = true ->
  isExcludedDomain rules (url article) = false ->
  (forall m, In m (excludeKeywordMatchers rules)
             -> test (pattern m) (combinedText article) = false) ->
  (forall text, test (buildTermPattern term) text = true)
  /\ isAiRelatedArticle rules article = true.
Proof.
  intros Hin Hblank Hdomain Hexclude.
  assert (Hall : forall text, test (buildTermPattern term) text = true).
  { intros text. rewrite (blank_term_pattern term Hblank). apply test_empty_pattern. }
  split; [exact Hall |].
  unfold isAiRelatedArticle. rewrite Hdomain.
  assert (Hallow : (0 < length (findMatchedTerms (combinedText article)
                                                 (allowKeywordMatchers rules)))%nat).
  { apply some_hit. exists {| term := term; pattern := buildTermPattern term |}.
    split; [| apply Hall].
    unfold allowKeywordMatchers. apply in_map_iff. now exists term. }
  destruct (length (findMatchedTerms _ (allowKeywordMatchers rules))) eqn:Hlen; [lia |].
  cbn [Nat.eqb]. now rewrite (no_hit _ _ Hexclude).
Qed.

Lemma blank_allow_keyword_opens_witness :
  (forall text, test (buildTermPattern (js "  ")) text = true)
  /\ isAiRelatedArticle Examples.blankRules Examples.gardeningArticle = true.
Proof.
  apply (blank_allow_keyword_opens Examples.blankRules (js "  ") Examples.gardeningArticle).
  - left. reflexivity.
  - reflexivity.
  - reflexivity.
  - intros m [<- | []]. vm_compute. reflexivity.
Defined.

(** ** The summariser *)


Section SummaryFacts.
Context `{Engine}.

Lemma buildFallbackSummary_base (article : RawArticle) :
  buildFallbackSummary article
  = if (200 <? length (fallbackBase article))%nat
    then take 197 (fallbackBase article) ++ js "..."
    else fallbackBase article.
Proof.
  unfold buildFallbackSummary, fallbackBase.
  destruct (description article) as [[| c d] |], (title article) as [[| c' t] |]; reflexivity.
Qed.

Lemma buildFallbackSummary_length (article : RawArticle) :
  (length (buildFallbackSummary article) <= 200)%nat.
Proof.
  rewrite buildFallbackSummary_base.
  destruct (200 <? length (fallbackBase article))%nat eqn:Hlong.
  - apply Nat.ltb_lt in Hlong. rewrite length_app, length_take.
    change (length (js "...")) with 3%nat. lia.
  - now apply Nat.ltb_ge in Hlong.
Qed.

Lemma orElse_missing (v : json) (key : jsstring) (other : json) :
  missing v key = true -> orElse (prop v key) other = other.
Proof.
  unfold missing, orElse. destruct (prop v key) as [x |]; [| reflexivity].
  intros Hx. apply negb_true_iff in Hx. now rewrite Hx.
Qed.

(** Each field of the reply falls back on its own. *)
Lemma summarize_field_defaults (reply : jsstring) (v : json) (article : RawArticle) :
  JSON_parse (cleaned reply) = Some v ->
  (missing v (js "title_ja") = true ->
   title_ja (summarizeArticle (Replied reply) article) = ofField (title article))
  /\ (missing v (js "summary_ja") = true ->
      summary_ja (summarizeArticle (Replied reply) article)
      = JString (buildFallbackSummary article)).
Proof.
  intros Hparse. unfold summarizeArticle. fold (cleaned reply). rewrite Hparse.
  split; intros Hmiss; destruct v; try reflexivity; cbn [title_ja summary_ja];
    now apply orElse_missing.
Qed.
End SummaryFacts.

(** C5: when the summarisation fails (the call fails, the reply is not
    JSON, the fields are missing), [summarizeArticle] returns the original
    title as title_ja and, as summary_ja, the description, else the title,
    else the fixed message, cut to 197 code units and three dots when
    longer than 200, hence never longer than 200. *)
Theorem summarize_falls_back `{Engine} (outcome : ModelOutcome) (article : RawArticle) :
  summarizationFails outcome ->
  title_ja (summarizeArticle outcome article) = ofField (title article)
  /\ summary_ja (summarizeArticle outcome article) = JString (buildFallbackSummary article)
  /\ buildFallbackSummary article
     = (if (200 <? length (fallbackBase article))%nat
        then take 197 (fallbackBase article) ++ js "..."
        else fallbackBase article)
  /\ (length (buildFallbackSummary article) <= 200)%nat.
Proof.
  intros Hfails.
  assert (Hs : title_ja (summarizeArticle outcome article) = ofField (title article)
               /\ summary_ja (summarizeArticle outcome article)
                  = JString (buildFallbackSummary article)).
  { destruct Hfails as [| reply Hparse | reply v Hparse Ht Hs].
    - now split.
    - unfold summarizeArticle. fold (cleaned reply). rewrite Hparse. now split.
    - destruct (summarize_field_defaults reply v article Hparse) as [Htitle Hsummary].
      split; [now apply Htitle | now apply Hsummary]. }
  destruct Hs as [Htitle Hsummary]. repeat split; try assumption.
  - apply buildFallbackSummary_base.
  - apply buildFallbackSummary_length.
Qed.

Lemma summarize_falls_back_witness :
  summarizationFails (Replied (js "Sorry, I cannot summarise this article."))
  /\ title_ja (summarizeArticle (Replied (js "Sorry, I cannot summarise this article."))
                                Examples.sportsArticle)
     = JString (js "AI breakthrough in sports analytics").
Proof.
  assert (Hfails : summarizationFails (Replied (js "Sorry, I cannot summarise this article.")))
    by (apply not_json; vm_compute; reflexivity).
  exact (conj Hfails (proj1 (summarize_falls_back _ Examples.sportsArticle Hfails))).
Defined.

(** ** The run *)


Section Sorting.
Context {A : Type} (cmp : A -> A -> Z) (key : A -> Z) (P : A -> Prop).
Hypothesis cmp_key : forall a b, P a -> P b -> cmp a b = (key b - key a)%Z.

Lemma insert_Permutation (x : A) (l : list A) : JS.insert cmp x l ≡ₚ x :: l.
Proof.
  induction l as [| y l IH]; cbn [JS.insert]; [reflexivity |].
  destruct (cmp x y <=? 0)%Z; [reflexivity |].
  rewrite IH. apply Permutation_swap.
Qed.

Lemma sort_Permutation (l : list A) : JS.sort cmp l ≡ₚ l.
Proof.
  induction l as [| x l IH]; cbn [JS.sort]; [reflexivity |].
  now rewrite insert_Permutation, IH.
Qed.

Lemma insert_sorted (x : A) (l : list A) :
  P x -> Forall P l ->
  StronglySorted (descendingBy key) l -> StronglySorted (descendingBy key) (JS.insert cmp x l).
Proof.
  intros Hx Hl Hsorted. induction l as [| y l IH]; cbn [JS.insert].
  - repeat constructor.
  - apply Forall_cons in Hl as [Hy Hl].
    apply StronglySorted_inv in Hsorted as [Hsorted Hall].
    rewrite (cmp_key x y Hx Hy).
    destruct (key y - key x <=? 0)%Z eqn:Hcmp.
    + apply Z.leb_le in Hcmp. constructor; [now constructor |].
      constructor; [unfold descendingBy; lia |].
      eapply Forall_impl; [exact Hall |]. unfold descendingBy. intros z Hz. lia.
    + apply Z.leb_gt in Hcmp. constructor; [now apply IH |].
      rewrite insert_Permutation. constructor; [unfold descendingBy; lia | exact Hall].
Qed.

Lemma sort_sorted (l : list A) :
  Forall P l -> StronglySorted (descendingBy key) (JS.sort cmp l).
Proof.
  induction l as [| x l IH]; intros Hl; cbn [JS.sort]; [constructor |].
  apply Forall_cons in Hl as [Hx Hl].
  apply insert_sorted; [exact Hx | now rewrite sort_Permutation | now apply IH].
Qed.
End Sorting.

Lemma StronglySorted_same_keys {A B : Type} (ka : A -> Z) (kb : B -> Z)
      (la : list A) (lb : list B) :
  List.map kb lb = List.map ka la ->
  StronglySorted (fun a a' => (ka a' <= ka a)%Z) la ->
  StronglySorted (fun b b' => (kb b' <= kb b)%Z) lb.
Proof.
  revert lb. induction la as [| a la IH]; intros [| b lb] Hkeys Hsorted;
    try discriminate; [constructor |].
  cbn [List.map] in Hkeys. injection Hkeys as Hk Hkeys.
  apply StronglySorted_inv in Hsorted as [Hsorted Hall].
  constructor; [now apply IH |].
  apply List.Forall_forall. intros b' Hb'.
  assert (Hin : In (kb b') (List.map ka la))
    by (rewrite <- Hkeys; now apply in_map).
  apply in_map_iff in Hin as (a' & Ha' & Hin).
  rewrite List.Forall_forall in Hall. specialize (Hall a' Hin). lia.
Qed.

Section RunFacts.
Context `{Engine}.
Variable rules : FilterRules.

Lemma byDateDescending_key (a b : RawArticle) :
  is_Some (getTime (publishedAt a)) -> is_Some (getTime (publishedAt b)) ->
  byDateDescending a b = (timeOf (publishedAt b) - timeOf (publishedAt a))%Z.
Proof.
  intros [ta Ha] [tb Hb]. unfold byDateDescending, timeOf. now rewrite Ha, Hb.
Qed.

Lemma filter_Forall {A} (P : A -> Prop) (f : A -> bool) (l : list A) :
  Forall P l -> Forall P (List.filter f l).
Proof.
  rewrite !List.Forall_forall. intros Hl x Hx. apply filter_In in Hx as [Hx _]. auto.
Qed.

Lemma topArticles_length (articles : list RawArticle) :
  (length (topArticles rules articles) <= 20)%nat.
Proof. unfold topArticles. rewrite length_take. lia. Qed.

Lemma topArticles_sorted (articles : list RawArticle) :
  datesValid articles ->
  StronglySorted (fun a b => (timeOf (publishedAt b) <= timeOf (publishedAt a))%Z)
                 (topArticles rules articles).
Proof.
  intros Hvalid. unfold topArticles.
  apply StronglySorted_app_1_l with (l2 := drop 20 (JS.sort byDateDescending
    (List.filter (isAiRelatedArticle rules)
       (List.filter (fun article => negb (bool_decide (title article = Some (js "[Removed]"))))
                    articles)))).
  rewrite take_drop.
  apply (sort_sorted byDateDescending (fun a => timeOf (publishedAt a))
                     (fun a => is_Some (getTime (publishedAt a)))).
  - intros a b. apply byDateDescending_key.
  - now do 2 apply filter_Forall.
Qed.

Lemma summarizeAll_order (w : World) (top : list RawArticle) :
  forall (n : nat) (processed : list ProcessedArticle),
    summarizeAll w n top = Some processed ->
    List.map published_at processed = List.map publishedAt top
    /\ List.map p_title processed = List.map title top
    /\ List.map original_url processed = List.map url top.
Proof.
  induction top as [| a top IH]; intros n processed Hsum; cbn [summarizeAll] in Hsum.
  - injection Hsum as <-. now repeat split.
  - destruct (source a) as [src |]; [| discriminate].
    destruct (summarizeAll w (S n) top) as [rest |] eqn:Hrest; [| discriminate].
    cbn in Hsum. injection Hsum as <-.
    destruct (IH _ _ Hrest) as (Hp & Ht & Hu). cbn. now rewrite Hp, Ht, Hu.
Qed.

(** A file that differs after the run holds the snapshot of the run. *)
Lemma processNews_written (w : World) (disk : Disk) (path : jsstring) :
  snd (processNews rules w disk) !! path <> disk !! path ->
  exists processed,
    summarizeAll w 0 (topArticles rules (fetchNews w)) = Some processed
    /\ snd (processNews rules w disk) !! path
       = Some {| updated_at := now w; articles := processed |}.
Proof.
  unfold processNews.
  destruct (length (fetchNews w) =? 0)%nat; [now intros [] |].
  destruct (length (topArticles rules (fetchNews w)) =? 0)%nat; [now intros [] |].
  destruct (summarizeAll w 0 (topArticles rules (fetchNews w))) as [processed |];
    [| now intros []].
  unfold writeFileSync.
  destruct (writable w latestPath); [| now intros []].
  destruct (writable w (archivePath (today w))); cbn [snd]; intros Hdiff;
    exists processed; (split; [reflexivity |]).
  - destruct (decide (path = archivePath (today w))) as [-> | Harchive].
    + now rewrite lookup_insert_eq.
    + rewrite lookup_insert_ne in Hdiff |- * by congruence.
      destruct (decide (path = latestPath)) as [-> | Hlatest].
      * now rewrite lookup_insert_eq.
      * rewrite lookup_insert_ne in Hdiff by congruence. now contradiction Hdiff.
  - destruct (decide (path = latestPath)) as [-> | Hlatest].
    + now rewrite lookup_insert_eq.
    + rewrite lookup_insert_ne in Hdiff by congruence. now contradiction Hdiff.
Qed.
(** A run that ends well leaves its snapshot in both files. *)
Lemma processNews_saved (w : World) (disk : Disk) :
  fst (processNews rules w disk) = Saved ->
  exists processed,
    summarizeAll w 0 (topArticles rules (fetchNews w)) = Some processed
    /\ snd (processNews rules w disk) !! latestPath
       = snd (processNews rules w disk) !! archivePath (today w)
    /\ snd (processNews rules w disk) !! archivePath (today w)
       = Some {| updated_at := now w; articles := processed |}.
Proof.
  unfold processNews.
  destruct (length (fetchNews w) =? 0)%nat; [discriminate |].
  destruct (length (topArticles rules (fetchNews w)) =? 0)%nat; [discriminate |].
  destruct (summarizeAll w 0 (topArticles rules (fetchNews w))) as [processed |];
    [| discriminate].
  unfold writeFileSync.
  destruct (writable w latestPath); [| discriminate].
  destruct (writable w (archivePath (today w))); [| discriminate].
  intros _. exists processed. cbn [snd]. split; [reflexivity |].
  rewrite lookup_insert_eq. split; [| reflexivity].
  destruct (decide (latestPath = archivePath (today w))) as [<- | Hne].
  - now rewrite lookup_insert_eq.
  - now rewrite lookup_insert_ne, lookup_insert_eq by congruence.
Qed.
End RunFacts.

(** C6: a run that fetches no article, or whose articles are all gone
    after the drop of [Removed], the classifier and the cut to twenty,
    ends without a write: the files are as they were. *)
Theorem empty_run_writes_nothing `{Engine} (rules : FilterRules) (w : World) (disk : Disk) :
  fetchNews w = [] \/ topArticles rules (fetchNews w) = [] ->
  snd (processNews rules w disk) = disk
  /\ (fst (processNews rules w disk) = NoArticles
      \/ fst (processNews rules w disk) = NoRelevantArticles).
Proof.
  unfold processNews. intros [Hnone | Hnone].
  - rewrite Hnone. cbn. auto.
  - destruct (length (fetchNews w) =? 0)%nat; [cbn; auto |].
    rewrite Hnone. cbn. auto.
Qed.

Lemma empty_run_writes_nothing_witness :
  snd (processNews Examples.sportsRules Examples.offline ∅) = ∅
  /\ (fst (processNews Examples.sportsRules Examples.offline ∅) = NoArticles
      \/ fst (processNews Examples.sportsRules Examples.offline ∅) = NoRelevantArticles).
Proof.
  apply (empty_run_writes_nothing Examples.sportsRules Examples.offline ∅).
  left. reflexivity.
Defined.

(** C7: a file written by a run holds a snapshot of at most twenty
    articles, newest first (a missing timestamp counting as the epoch), in
    the order the sort and the cut left them: the summaries are added
    without a change of order.  The timestamps are those the date parser
    accepts. *)
Theorem snapshot_newest_first `{Engine}
        (rules : FilterRules) (w : World) (disk : Disk) (path : jsstring) :
  datesValid (fetchNews w) ->
  snd (processNews rules w disk) !! path <> disk !! path ->
  exists snap,
    snd (processNews rules w disk) !! path = Some snap
    /\ (length (articles snap) <= 20)%nat
    /\ newestFirst (articles snap)
    /\ List.map published_at (articles snap)
       = List.map publishedAt (topArticles rules (fetchNews w))
    /\ List.map p_title (articles snap) = List.map title (topArticles rules (fetchNews w))
    /\ List.map original_url (articles snap) = List.map url (topArticles rules (fetchNews w)).
Proof.
  intros Hvalid Hdiff.
  destruct (processNews_written rules w disk path Hdiff) as (processed & Hsum & Hfile).
  destruct (summarizeAll_order w _ _ _ Hsum) as (Hdates & Htitles & Hurls).
  exists {| updated_at := now w; articles := processed |}. cbn [articles].
  repeat split; try assumption.
  - rewrite <- (length_map published_at), Hdates, length_map. apply topArticles_length.
  - unfold newestFirst.
    apply (StronglySorted_same_keys (fun a => timeOf (publishedAt a))
                                    (fun p => timeOf (published_at p))
                                    (topArticles rules (fetchNews w))).
    + rewrite <- (map_map published_at timeOf), Hdates. now rewrite map_map.
    + now apply topArticles_sorted.
Qed.

Lemma snapshot_newest_first_witness :
  exists snap,
    snd (processNews Examples.sportsRules Examples.world ∅) !! latestPath = Some snap
    /\ (length (articles snap) <= 20)%nat
    /\ newestFirst (articles snap)
    /\ List.map published_at (articles snap)
       = List.map publishedAt (topArticles Examples.sportsRules (fetchNews Examples.world))
    /\ List.map p_title (articles snap)
       = List.map title (topArticles Examples.sportsRules (fetchNews Examples.world))
    /\ List.map original_url (articles snap)
       = List.map url (topArticles Examples.sportsRules (fetchNews Examples.world)).
Proof.
  apply (snapshot_newest_first Examples.sportsRules Examples.world ∅ latestPath).
  - repeat constructor; vm_compute; eauto.
  - vm_compute. discriminate.
Defined.

(** The run of the sample world: three of the six articles are kept,
    newest first, the undated one last; the first has the title and the
    summary of the model, the others fall back. *)
Example world_snapshot :
  fst (processNews Examples.sportsRules Examples.world ∅) = Saved
  /\ (List.map (fun p => (p_title p, p_title_ja p)) <$>
       (articles <$> snd (processNews Examples.sportsRules Examples.world ∅) !! latestPath))
     = Some [ (Some (js "Open AI models"), JString (js "T"));
              (Some (js "AI chips"), JString (js "AI chips"));
              (Some (js "AI undated"), JString (js "AI undated")) ].
Proof. split; vm_compute; reflexivity. Qed.

(** ** The service worker *)

Section CacheFacts.

Lemma filter_true {A} (f : A -> bool) (l : list A) :
  (forall x, In x l -> f x = true) -> List.filter f l = l.
Proof.
  induction l as [| x l IH]; intros Hf; cbn [List.filter]; [reflexivity |].
  rewrite (Hf x (or_introl eq_refl)). f_equal. apply IH. intros y Hy. apply Hf. now right.
Qed.

Lemma filter_filter {A} (f g : A -> bool) (l : list A) :
  List.filter f (List.filter g l) = List.filter (fun x => g x && f x) l.
Proof.
  induction l as [| x l IH]; cbn [List.filter]; [reflexivity |].
  destruct (g x); cbn [List.filter andb]; [destruct (f x) |]; now rewrite IH.
Qed.

Lemma keys_filter (f : jsstring -> bool) (caches : Worker.CacheStorage) :
  Worker.keys (List.filter (fun entry => f (fst entry)) caches)
  = List.filter f (Worker.keys caches).
Proof.
  unfold Worker.keys. induction caches as [| [k c] caches IH]; cbn; [reflexivity |].
  destruct (f k); cbn; now rewrite IH.
Qed.

(** Deleting, name by name, the caches that are not the current one. *)
Lemma purge_filter (names : list jsstring) :
  forall caches : Worker.CacheStorage,
    fold_left (fun cs cacheName =>
                 if negb (JS.eqb cacheName Worker.CACHE_NAME)
                 then Worker.delete cacheName cs else cs)
              names caches
    = List.filter (fun entry => JS.eqb (fst entry) Worker.CACHE_NAME
                                || negb (existsb (JS.eqb (fst entry)) names)) caches.
Proof.
  induction names as [| name names IH]; intros caches; cbn [fold_left existsb].
  - symmetry. apply filter_true. intros x _. apply orb_true_r.
  - rewrite IH. destruct (JS.eqb name Worker.CACHE_NAME) eqn:Hname; cbn [negb].
    + apply eqb_true in Hname. subst name. apply filter_ext. intros [k c]. cbn [fst].
      destruct (JS.eqb k Worker.CACHE_NAME); reflexivity.
    + unfold Worker.delete. rewrite filter_filter. apply filter_ext. intros [k c]. cbn [fst].
      destruct (JS.eqb k name) eqn:Hk; cbn [negb andb orb]; [| reflexivity].
      apply eqb_true in Hk. subst k. rewrite Hname. reflexivity.
Qed.

Lemma activate_filter (caches : Worker.CacheStorage) :
  Worker.activate caches
  = List.filter (fun entry => JS.eqb (fst entry) Worker.CACHE_NAME) caches.
Proof.
  unfold Worker.activate. rewrite purge_filter. apply filter_ext_in. intros [k c] Hin. cbn [fst].
  assert (Hk : existsb (JS.eqb k) (Worker.keys caches) = true).
  { apply existsb_exists. exists k. split; [| now apply eqb_true].
    unfold Worker.keys. apply in_map_iff. now exists (k, c). }
  rewrite Hk. apply orb_false_r.
Qed.

Lemma filter_absent (x : jsstring) (l : list jsstring) :
  ~ In x l -> List.filter (fun k => JS.eqb k x) l = [].
Proof.
  induction l as [| y l IH]; intros Hx; cbn [List.filter]; [reflexivity |].
  destruct (JS.eqb y x) eqn:Hyx.
  - apply eqb_true in Hyx. subst y. contradiction Hx. now left.
  - apply IH. intros Hin. apply Hx. now right.
Qed.

Lemma filter_only (x : jsstring) (l : list jsstring) :
  NoDup l -> In x l -> List.filter (fun k => JS.eqb k x) l = [x].
Proof.
  induction l as [| y l IH]; intros Hnodup Hin; [destruct Hin |].
  apply NoDup_cons in Hnodup as [Hy Hnodup]. rewrite list_elem_of_In in Hy.
  cbn [List.filter]. destruct (JS.eqb y x) eqn:Hyx.
  - apply eqb_true in Hyx. subst y. f_equal. now apply filter_absent.
  - destruct Hin as [-> | Hin]; [| now apply IH].
    unfold JS.eqb in Hyx. now rewrite bool_decide_eq_true_2 in Hyx.
Qed.

End CacheFacts.

Section WorkerFacts.

Lemma has_In (caches : Worker.CacheStorage) (cacheName : jsstring) :
  Worker.has caches cacheName = true <-> In cacheName (Worker.keys caches).
Proof.
  unfold Worker.has. rewrite existsb_exists. split.
  - intros (k & Hk & Heq). apply eqb_true in Heq. now subst.
  - intros Hin. exists cacheName. split; [exact Hin | now apply eqb_true].
Qed.

Lemma open_keys (cacheName : jsstring) (caches : Worker.CacheStorage) :
  In cacheName (Worker.keys (Worker.open cacheName caches)).
Proof.
  unfold Worker.open. destruct (Worker.has caches cacheName) eqn:Hhas.
  - now apply has_In.
  - unfold Worker.keys. rewrite map_app. apply in_or_app. right. now left.
Qed.

Lemma open_NoDup (cacheName : jsstring) (caches : Worker.CacheStorage) :
  NoDup (Worker.keys caches) -> NoDup (Worker.keys (Worker.open cacheName caches)).
Proof.
  intros Hnodup. unfold Worker.open.
  destruct (Worker.has caches cacheName) eqn:Hhas; [exact Hnodup |].
  unfold Worker.keys. rewrite map_app. cbn. apply NoDup_app. repeat split.
  - exact Hnodup.
  - intros k Hk Hk'. apply list_elem_of_singleton in Hk'. subst k.
    apply list_elem_of_In, has_In in Hk. congruence.
  - apply NoDup_singleton.
Qed.

Lemma put_keys (cacheName request : jsstring) (response : Worker.Response)
      (caches : Worker.CacheStorage) :
  Worker.keys (Worker.put cacheName request response caches) = Worker.keys caches.
Proof.
  unfold Worker.keys, Worker.put. rewrite map_map. apply map_ext. intros [k c]. cbn [fst].
  now destruct (JS.eqb k cacheName).
Qed.

Lemma put_stores (cacheName request : jsstring) (response : Worker.Response)
      (caches : Worker.CacheStorage) :
  In cacheName (Worker.keys caches) ->
  exists cache, In (cacheName, cache) (Worker.put cacheName request response caches)
                /\ cache !! request = Some response.
Proof.
  intros Hin. unfold Worker.keys in Hin. apply in_map_iff in Hin as ([k c] & Hk & Hin).
  cbn [fst] in Hk. subst k. exists (<[request := response]> c). split.
  - unfold Worker.put. apply in_map_iff. exists (cacheName, c). split; [| exact Hin].
    cbn [fst snd]. unfold JS.eqb. now rewrite bool_decide_eq_true_2.
  - apply lookup_insert_eq.
Qed.

Lemma matchAll_None (request : jsstring) (caches : Worker.CacheStorage) :
  Worker.matchAll request caches = None <->
  forall cacheName cache, In (cacheName, cache) caches -> cache !! request = None.
Proof.
  induction caches as [| [k c] caches IH]; cbn [Worker.matchAll].
  - split; [intros _ ? ? [] | reflexivity].
  - destruct (c !! request) as [r |] eqn:Hc.
    + split; [discriminate |]. intros Hnone.
      specialize (Hnone k c (or_introl eq_refl)). congruence.
    + rewrite IH. split.
      * intros Hnone k' c' [[= <- <-] | Hin]; [exact Hc | eauto].
      * intros Hnone k' c' Hin. apply (Hnone k' c'). now right.
Qed.

Lemma matchAll_Some (request : jsstring) (caches : Worker.CacheStorage)
      (response : Worker.Response) :
  Worker.matchAll request caches = Some response ->
  exists cacheName cache, In (cacheName, cache) caches /\ cache !! request = Some response.
Proof.
  induction caches as [| [k c] caches IH]; cbn [Worker.matchAll]; [discriminate |].
  destruct (c !! request) as [r |] eqn:Hc.
  - intros [= <-]. exists k, c. split; [now left | exact Hc].
  - intros Hm. destruct (IH Hm) as (k' & c' & Hin & Hc').
    exists k', c'. split; [now right | exact Hc'].
Qed.

(** The install listener leaves the current cache in the storage. *)
Lemma install_keys (network : jsstring -> Worker.FetchOutcome)
      (caches : Worker.CacheStorage) :
  Worker.keys (snd (Worker.install network caches))
  = Worker.keys (Worker.open Worker.CACHE_NAME caches).
Proof.
  unfold Worker.install.
  destruct (Worker.fetchAll network Worker.ASSETS) as [responses |]; [| reflexivity].
  cbn [snd]. generalize (Worker.open Worker.CACHE_NAME caches). clear caches.
  induction responses as [| [u r] responses IH]; intros caches; cbn [fold_left]; [reflexivity |].
  now rewrite IH, put_keys.
Qed.

End WorkerFacts.

(** C8: the activate listener deletes every cache whose name is not the
    current one and keeps the current one with what it holds; the storage,
    which held the current cache, holds that cache alone afterwards. *)
Theorem activate_keeps_current_only (caches : Worker.CacheStorage) :
  NoDup (Worker.keys caches) -> In Worker.CACHE_NAME (Worker.keys caches) ->
  (forall cacheName, cacheName <> Worker.CACHE_NAME
                     -> ~ In cacheName (Worker.keys (Worker.activate caches)))
  /\ (forall cache, In (Worker.CACHE_NAME, cache) caches
                    -> In (Worker.CACHE_NAME, cache) (Worker.activate caches))
  /\ Worker.keys (Worker.activate caches) = [Worker.CACHE_NAME].
Proof.
  intros Hnodup Hcurrent. rewrite activate_filter. repeat split.
  - intros cacheName Hother Hin.
    rewrite (keys_filter (fun k => JS.eqb k Worker.CACHE_NAME)) in Hin.
    apply filter_In in Hin as [_ Heq]. now apply eqb_true in Heq.
  - intros cache Hin. apply filter_In. split; [exact Hin | now apply eqb_true].
  - rewrite (keys_filter (fun k => JS.eqb k Worker.CACHE_NAME)). now apply filter_only.
Qed.

Lemma activate_keeps_current_only_witness :
  Worker.keys (Worker.activate Examples.twoCaches) = [Worker.CACHE_NAME].
Proof.
  apply (activate_keeps_current_only Examples.twoCaches).
  - apply (bool_decide_unpack (NoDup (Worker.keys Examples.twoCaches))). vm_compute. exact I.
  - right. left. reflexivity.
Defined.

(** After an installation, whatever came of it, activation leaves the
    current cache alone. *)
Lemma activate_after_install (network : jsstring -> Worker.FetchOutcome)
      (caches : Worker.CacheStorage) :
  NoDup (Worker.keys caches) ->
  Worker.keys (Worker.activate (snd (Worker.install network caches))) = [Worker.CACHE_NAME].
Proof.
  intros Hnodup. rewrite activate_filter, (keys_filter (fun k => JS.eqb k Worker.CACHE_NAME)).
  rewrite install_keys. apply filter_only; [now apply open_NoDup | apply open_keys].
Qed.

(** C9: for a request of the data snapshot the network comes first.  Its
    response, when there is one, is what the page receives, and it is
    stored in the current cache when its status is 200 and its type basic,
    the storage staying as it was otherwise.  When the network fails the
    page receives what the caches hold for the request: a stored copy if
    there is one, nothing if there is none. *)
Theorem data_request_network_first
        (request : jsstring) (caches : Worker.CacheStorage) :
  includes request (js "/data/latest.json") = true ->
  (forall response,
      fst (Worker.onFetch (Worker.Resolved response) request caches)
      = Some response
      /\ (if (Worker.status response =? 200)
             && bool_decide (Worker.type response = Worker.basic)
          then exists cache,
                 In (Worker.CACHE_NAME, cache)
                    (snd (Worker.onFetch (Worker.Resolved response) request caches))
                 /\ cache !! request = Some response
          else snd (Worker.onFetch (Worker.Resolved response) request caches)
               = caches))
  /\ Worker.onFetch Worker.Rejected request caches
     = (Worker.matchAll request caches, caches)
  /\ (forall response,
         fst (Worker.onFetch Worker.Rejected request caches) = Some response ->
         exists cacheName cache,
           In (cacheName, cache) caches /\ cache !! request = Some response)
  /\ (fst (Worker.onFetch Worker.Rejected request caches) = None
      <-> forall cacheName cache, In (cacheName, cache) caches -> cache !! request = None).
Proof.
  intros Hdata. unfold Worker.onFetch. rewrite Hdata. repeat split.
  - now destruct (negb _ || negb _).
  - destruct (Worker.status response =? 200),
             (bool_decide (Worker.type response = Worker.basic));
      cbn [negb orb andb snd]; try reflexivity.
    apply put_stores, open_keys.
  - cbn [fst]. apply matchAll_Some.
  - cbn [fst]. apply matchAll_None.
  - cbn [fst]. apply matchAll_None.
Qed.

Lemma data_request_network_first_witness :
  Worker.onFetch Worker.Rejected Examples.dataRequest Examples.twoCaches
  = (None, Examples.twoCaches)
  /\ fst (Worker.onFetch (Worker.Resolved Examples.fresh) Examples.dataRequest Examples.twoCaches)
     = Some Examples.fresh.
Proof.
  assert (Hdata : includes Examples.dataRequest (js "/data/latest.json") = true)
    by (vm_compute; reflexivity).
  destruct (data_request_network_first Examples.dataRequest Examples.twoCaches Hdata)
    as (Hnet & Hoff & _ & _).
  split; [exact Hoff | exact (proj1 (Hnet Examples.fresh))].
Defined.

Lemma term_matcher_meaning_witness :
  exists pre mid post,
    js "an ai lab" = pre ++ mid ++ post
    /\ occurrence false (toLowerCase (trim (js "AI"))) mid
    /\ (if isShortWord (js "AI")
        then boundary (last pre) (head (mid ++ post)) = true
             /\ boundary (last (pre ++ mid)) (head post) = true
        else True).
Proof.
  apply (term_matcher_meaning (js "AI") (js "an ai lab")). vm_compute. reflexivity.
Defined.

(** * Further properties of the script and of the worker *)

(** ** Keywords and patterns *)

Section KeywordFacts.
Context `{Engine}.

Lemma trimStart_idempotent (s : jsstring) : trimStart (trimStart s) = trimStart s.
Proof.
  induction s as [| c s IH]; [reflexivity |].
  cbn [trimStart]. destruct (isWhiteSpace c) eqn:Hc; [exact IH |].
  cbn [trimStart]. now rewrite Hc.
Qed.

Lemma trimStart_app (l r : jsstring) (c : N) :
  isWhiteSpace c = false -> trimStart (l ++ c :: r) = trimStart l ++ c :: r.
Proof.
  intros Hc. induction l as [| x l IH]; cbn [app trimStart].
  - now rewrite Hc.
  - now destruct (isWhiteSpace x).
Qed.

Lemma trimEnd_cons (c : N) (r : jsstring) :
  isWhiteSpace c = false -> exists r', trimEnd (c :: r) = c :: r'.
Proof.
  intros Hc. unfold trimEnd. rewrite reverse_cons, trimStart_app by exact Hc.
  rewrite reverse_app. cbn. eauto.
Qed.

Lemma trimStart_fixed (s : jsstring) :
  trimStart s = [] \/ exists c r, trimStart s = c :: r /\ isWhiteSpace c = false.
Proof.
  induction s as [| c s IH]; [now left |].
  cbn [trimStart]. destruct (isWhiteSpace c) eqn:Hc; [exact IH |].
  right. now exists c, s.
Qed.

Lemma trim_idempotent (s : jsstring) : trim (trim s) = trim s.
Proof.
  unfold trim. destruct (trimStart_fixed s) as [-> | (c & r & -> & Hc)]; [reflexivity |].
  destruct (trimEnd_cons c r Hc) as (r' & Hr'). rewrite Hr'.
  cbn [trimStart]. rewrite Hc, <- Hr'.
  unfold trimEnd. now rewrite reverse_involutive, trimStart_idempotent.
Qed.

Lemma hit_exists (text : jsstring) (matchers : list Matcher) :
  (0 < length (findMatchedTerms text matchers))%nat ->
  exists m, In m matchers /\ test (pattern m) text = true.
Proof.
  rewrite findMatchedTerms_length. intros Hlen.
  destruct (List.filter (fun m => test (pattern m) text) matchers) as [| m ms] eqn:Hf;
    [cbn in Hlen; lia |].
  assert (Hin : In m (List.filter (fun m => test (pattern m) text) matchers))
    by (rewrite Hf; now left).
  apply filter_In in Hin. now exists m.
Qed.

Lemma noPlus_escaped (value tail : jsstring) :
  noPlus tail -> noPlus (escapeRegExp value ++ tail).
Proof.
  intros Htail. destruct value as [| c value]; [exact Htail |].
  unfold escapeRegExp. cbn [flat_map]. destruct (isSyntaxCharacter c) eqn:Hc.
  - cbn. discriminate.
  - unfold noPlus. cbn. intros [= ->]. discriminate Hc.
Qed.

Lemma parse_escaped_source (value : jsstring) :
  forall (tail : jsstring) (q : RegExp.pattern),
    noPlus tail -> parse tail = Some q ->
    parse (escapeRegExp value ++ tail) = Some (literalPattern value ++ q).
Proof.
  induction value as [| c value IH]; intros tail q Htail Hq; [exact Hq |].
  unfold escapeRegExp. cbn [flat_map]. fold (escapeRegExp value).
  cbn [literalPattern List.map]. fold (literalPattern value).
  destruct (isSyntaxCharacter c) eqn:Hc; cbn [app].
  - rewrite parse_escaped by (assumption || now apply noPlus_escaped).
    now rewrite (IH tail q Htail Hq).
  - rewrite parse_character by (assumption || now apply noPlus_escaped).
    now rewrite (IH tail q Htail Hq).
Qed.

Lemma matchHere_literal (value : jsstring) :
  forall (q : RegExp.pattern) (prev : option N) (s : jsstring),
    matchHere (literalPattern value ++ q) prev s = true <->
    exists mid rest, s = mid ++ rest /\ Forall2 sameLetter value mid
                     /\ matchHere q (lastOr prev mid) rest = true.
Proof.
  induction value as [| c value IH]; intros q prev s.
  - cbn [literalPattern List.map app]. split.
    + intros Hq. exists [], s. repeat split; [constructor | exact Hq].
    + intros (mid & rest & -> & Hmid & Hq). inversion Hmid; subst. exact Hq.
  - cbn [literalPattern List.map app matchHere]. fold (literalPattern value).
    destruct s as [| x s].
    + split; [discriminate |].
      intros (mid & rest & Hs & Hmid & _). inversion Hmid; subst. discriminate Hs.
    + rewrite andb_true_iff, accepts_singleton, IH. split.
      * intros [Hx (mid & rest & -> & Hmid & Hq)]. exists (x :: mid), rest.
        repeat split; [now constructor | now rewrite lastOr_cons].
      * intros (mid & rest & Hs & Hmid & Hq). inversion Hmid; subst.
        cbn [app] in Hs. injection Hs as <- ->. split; [assumption |].
        eexists _, rest. repeat split; [eassumption | now rewrite lastOr_cons in Hq].
Qed.

End KeywordFacts.


(** X2: a string escaped by [escapeRegExp] compiles to the pattern that
    reads the string letter by letter, and so matches a text exactly when
    the text contains the string up to case, syntax characters included. *)
Theorem escapeRegExp_literal `{Engine} (value text : jsstring) :
  parse (escapeRegExp value) = Some (literalPattern value)
  /\ (test (literalPattern value) text = true <->
      exists pre mid post, text = pre ++ mid ++ post /\ Forall2 sameLetter value mid).
Proof.
  split.
  - rewrite <- (app_nil_r (escapeRegExp value)).
    rewrite (parse_escaped_source value [] []); [now rewrite app_nil_r | discriminate | reflexivity].
  - unfold test. rewrite search_spec. split.
    + intros (pre & rest & -> & Hm). rewrite <- (app_nil_r (literalPattern value)) in Hm.
      apply matchHere_literal in Hm as (mid & post & -> & Hmid & _).
      now exists pre, mid, post.
    + intros (pre & mid & post & -> & Hmid).
      exists pre, (mid ++ post). split; [reflexivity |].
      rewrite <- (app_nil_r (literalPattern value)).
      apply matchHere_literal. now exists mid, post.
Qed.

(** X3: whitespace around a keyword does not count: the keyword and its
    trimmed form give the same pattern. *)
Theorem keyword_whitespace_ignored `{Engine} (term : jsstring) :
  buildTermPattern (trim term) = buildTermPattern term.
Proof.
  unfold buildTermPattern, regexSource, isShortWord. now rewrite trim_idempotent.
Qed.

(** X4: [isExcludedDomain] holds exactly when the host of the URL is not
    empty and, for some entry of exclude_domains, equals the lowercased,
    trimmed entry or ends with a dot followed by it.  A host that only
    ends with the letters of an entry is not excluded. *)
Theorem isExcludedDomain_exactly `{Engine} (rules : FilterRules) (url : option jsstring) :
  isExcludedDomain rules url = true <->
  extractHost url <> []
  /\ exists domain,
       In domain (exclude_domains rules)
       /\ (extractHost url = trim (toLowerCase domain)
           \/ (ch "." :: trim (toLowerCase domain)) `suffix_of` extractHost url).
Proof.
  unfold isExcludedDomain. destruct (extractHost url) as [| c host] eqn:Hhost.
  - split; [discriminate | now intros [Hne _]].
  - rewrite existsb_exists. split.
    + intros (domain & Hin & Hcover). split; [discriminate |]. exists domain.
      split; [exact Hin |]. apply orb_true_iff in Hcover as [Heq | Hsuf].
      * left. now apply eqb_true.
      * right. now apply endsWith_suffix.
    + intros (_ & domain & Hin & Hcover). exists domain. split; [exact Hin |].
      apply orb_true_iff. destruct Hcover as [Heq | Hsuf].
      * left. now apply eqb_true.
      * right. now apply endsWith_suffix.
Qed.

(** X5: an article without a URL, with an empty URL, or with a URL the
    parser rejects is never excluded by its domain, whatever the rules. *)
Theorem no_host_never_excluded `{Engine} (rules : FilterRules) (url : option jsstring) :
  url = None \/ url = Some [] \/ (exists u, url = Some u /\ URL_hostname u = None) ->
  extractHost url = [] /\ isExcludedDomain rules url = false.
Proof.
  intros Hurl.
  assert (Hhost : extractHost url = []).
  { destruct Hurl as [-> | [-> | (u & -> & Hu)]]; try reflexivity.
    unfold extractHost. destruct u; [reflexivity | now rewrite Hu]. }
  split; [exact Hhost |]. unfold isExcludedDomain. now rewrite Hhost.
Qed.

Lemma no_host_never_excluded_witness :
  extractHost (Some (js "not a url")) = []
  /\ isExcludedDomain Examples.domainRules (Some (js "not a url")) = false.
Proof.
  apply (no_host_never_excluded Examples.domainRules (Some (js "not a url"))).
  right. right. exists (js "not a url"). split; [reflexivity | vm_compute; reflexivity].
Defined.

(** X6: the whole decision of [isAiRelatedArticle]: an article is kept
    exactly when its domain is not excluded, some allow keyword matches
    its combined text and no exclude keyword does. *)
Theorem isAiRelatedArticle_exactly `{Engine} (rules : FilterRules) (article : RawArticle) :
  isAiRelatedArticle rules article = true <->
  isExcludedDomain rules (url article) = false
  /\ (exists m, In m (allowKeywordMatchers rules)
                /\ test (pattern m) (combinedText article) = true)
  /\ (forall m, In m (excludeKeywordMatchers rules)
                -> test (pattern m) (combinedText article) = false).
Proof.
  unfold isAiRelatedArticle.
  destruct (isExcludedDomain rules (url article)); [split; [discriminate | now intros [? _]] |].
  destruct (length (findMatchedTerms (combinedText article) (allowKeywordMatchers rules)))
    as [| n] eqn:Hallow; cbn [Nat.eqb].
  - split; [discriminate |]. intros (_ & Hhit & _).
    apply some_hit in Hhit. lia.
  - assert (Hhit : exists m, In m (allowKeywordMatchers rules)
                             /\ test (pattern m) (combinedText article) = true)
      by (apply hit_exists; rewrite Hallow; lia).
    destruct (0 <? length (findMatchedTerms (combinedText article)
                                            (excludeKeywordMatchers rules)))%nat eqn:Hexclude.
    + apply Nat.ltb_lt in Hexclude. apply hit_exists in Hexclude as (m & Hin & Hm).
      split; [now destruct (forallb _ _) |].
      intros (_ & _ & Hnone). rewrite (Hnone m Hin) in Hm. discriminate.
    + apply Nat.ltb_ge in Hexclude. split; [| reflexivity]. intros _.
      repeat split; [exact Hhit |]. intros m Hin.
      destruct (test (pattern m) (combinedText article)) eqn:Hm; [| reflexivity].
      assert (0 < length (findMatchedTerms (combinedText article)
                                           (excludeKeywordMatchers rules)))%nat
        by (apply some_hit; now exists m).
      lia.
Qed.

(** X7: a blank exclude keyword compiles to the pattern that matches every
    text, and then every article is rejected. *)
Theorem blank_exclude_keyword_rejects_all `{Engine}
        (rules : FilterRules) (term : jsstring) (article : RawArticle) :
  In term (exclude_keywords rules) ->
  forallb isWhiteSpace term = true ->
  isAiRelatedArticle rules article = false.
Proof.
  intros Hin Hblank. unfold isAiRelatedArticle.
  destruct (isExcludedDomain rules (url article)); [reflexivity |].
  destruct (length (findMatchedTerms _ (allowKeywordMatchers rules)) =? 0)%nat; [reflexivity |].
  assert (Hhit : (0 < length (findMatchedTerms (combinedText article)
                                               (excludeKeywordMatchers rules)))%nat).
  { apply some_hit. exists {| term := term; pattern := buildTermPattern term |}. split.
    - unfold excludeKeywordMatchers. apply in_map_iff. now exists term.
    - cbn [pattern]. rewrite (blank_term_pattern term Hblank). apply test_empty_pattern. }
  apply Nat.ltb_lt in Hhit. rewrite Hhit. clear Hblank. now destruct (forallb _ _).
Qed.

Lemma blank_exclude_keyword_rejects_all_witness :
  isAiRelatedArticle Examples.blankExcludeRules Examples.learningArticle = false.
Proof.
  apply (blank_exclude_keyword_rejects_all Examples.blankExcludeRules (js " ")).
  - left. reflexivity.
  - reflexivity.
Defined.

Lemma accepted_has_allow_hit `{Engine} (rules : FilterRules) (article : RawArticle) :
  isAiRelatedArticle rules article = true ->
  exists m, In m (allowKeywordMatchers rules)
            /\ test (pattern m) (combinedText article) = true.
Proof.
  unfold isAiRelatedArticle.
  destruct (isExcludedDomain rules (url article)); [discriminate |].
  destruct (length (findMatchedTerms (combinedText article) (allowKeywordMatchers rules)))
    as [| n] eqn:Hallow; [discriminate |].
  intros _. apply hit_exists. rewrite Hallow. lia.
Qed.

(** X8: an article is accepted only if the rules file could be read and
    parsed and holds an array of allow keywords, one of which matches the
    combined text of the article. *)
Theorem acceptance_needs_allow_keyword `{Engine} (file : RulesFile) (article : RawArticle) :
  isAiRelatedArticle (loadFilterRules file) article = true ->
  exists allow domains exclude keyword,
    file = Document (Some allow) domains exclude
    /\ In keyword allow
    /\ test (buildTermPattern keyword) (combinedText article) = true.
Proof.
  intros Haccepted. apply accepted_has_allow_hit in Haccepted as (m & Hin & Hm).
  unfold allowKeywordMatchers in Hin. apply in_map_iff in Hin as (keyword & <- & Hin).
  destruct file as [| | [allow |] domains exclude]; try destruct Hin.
  exists allow, domains, exclude, keyword. now repeat split.
Qed.

Lemma acceptance_needs_allow_keyword_witness :
  exists allow domains exclude keyword,
    Document (Some [js "machine learning"]) None None = Document (Some allow) domains exclude
    /\ In keyword allow
    /\ test (buildTermPattern keyword) (combinedText Examples.learningArticle) = true.
Proof.
  apply (acceptance_needs_allow_keyword (Document (Some [js "machine learning"]) None None)
                                        Examples.learningArticle).
  vm_compute. reflexivity.
Defined.

(** ** Summaries *)

Section ReplyFacts.
Context `{Engine}.

Lemma trimStart_skip (ws s : jsstring) :
  forallb isWhiteSpace ws = true -> trimStart (ws ++ s) = trimStart s.
Proof.
  induction ws as [| c ws IH]; intros Hws; [reflexivity |].
  cbn [forallb] in Hws. apply andb_prop in Hws as [Hc Hws].
  cbn [app trimStart]. rewrite Hc. now apply IH.
Qed.

Lemma trimEnd_skip (s ws : jsstring) :
  forallb isWhiteSpace ws = true -> trimEnd (s ++ ws) = trimEnd s.
Proof.
  intros Hws. unfold trimEnd. rewrite reverse_app, trimStart_skip; [reflexivity |].
  apply forallb_forall. intros x Hx.
  rewrite <- list_elem_of_In, elem_of_reverse, list_elem_of_In in Hx.
  rewrite forallb_forall in Hws. now apply Hws.
Qed.

Lemma trimStart_length (s : jsstring) : (length (trimStart s) <= length s)%nat.
Proof.
  induction s as [| c s IH]; [reflexivity |].
  cbn [trimStart]. destruct (isWhiteSpace c); cbn [length]; lia.
Qed.

Lemma trimStart_kept (c : N) (s : jsstring) :
  trimStart (c :: s) = c :: s -> isWhiteSpace c = false.
Proof.
  cbn [trimStart]. destruct (isWhiteSpace c); [| reflexivity].
  intros Heq. pose proof (trimStart_length s) as Hlen.
  rewrite Heq in Hlen. cbn [length] in Hlen. lia.
Qed.

Lemma fallbackBase_nonempty (article : RawArticle) : fallbackBase article <> [].
Proof.
  unfold fallbackBase.
  destruct (description article) as [[| c d] |], (title article) as [[| c' t] |];
    discriminate.
Qed.

Lemma buildFallbackSummary_nonempty (article : RawArticle) :
  buildFallbackSummary article <> [].
Proof.
  rewrite buildFallbackSummary_base.
  destruct (200 <? length (fallbackBase article))%nat.
  - intros Hnil. apply app_eq_nil in Hnil as [_ Hdots]. discriminate Hdots.
  - apply fallbackBase_nonempty.
Qed.

End ReplyFacts.

(** X9: whatever the model does, the summary [summarizeArticle] returns
    is a value the page can show: never null, false, zero or the empty
    string. *)
Theorem summary_never_empty `{Engine} (outcome : ModelOutcome) (article : RawArticle) :
  json_truthy (summary_ja (summarizeArticle outcome article)) = true.
Proof.
  assert (Hlocal : json_truthy (JString (buildFallbackSummary article)) = true).
  { pose proof (buildFallbackSummary_nonempty article) as Hne. cbn.
    now destruct (buildFallbackSummary article). }
  unfold summarizeArticle. destruct outcome as [| reply]; [exact Hlocal |].
  destruct (JSON_parse _) as [v |]; [| exact Hlocal].
  destruct v; try exact Hlocal; cbn [summary_ja]; unfold orElse;
    match goal with
    | |- context [prop ?v ?k] => destruct (prop v k) as [x |]; [| exact Hlocal]
    end;
    destruct (json_truthy x) eqn:Hx; [exact Hx | exact Hlocal].
Qed.

(** X10: a reply the model wraps in a fenced block, the opening marker
    followed by json, is read as its body: the markers and the whitespace
    between them and the body are removed before [JSON.parse]. *)
Theorem fenced_reply_read_as_body `{Engine} (ws1 body ws2 : jsstring) :
  forallb isWhiteSpace ws1 = true -> forallb isWhiteSpace ws2 = true ->
  trimStart body = body -> trimEnd body = body ->
  cleaned (fence ++ js "json" ++ ws1 ++ body ++ ws2 ++ fence) = body.
Proof.
  intros Hws1 Hws2 Hstart Hend. unfold cleaned.
  set (rest := ws1 ++ body ++ ws2 ++ fence).
  assert (Htrim : trim (fence ++ js "json" ++ rest) = fence ++ js "json" ++ rest).
  { unfold trim. change (trimStart (fence ++ js "json" ++ rest))
      with (fence ++ js "json" ++ rest).
    unfold trimEnd. subst rest.
    rewrite !reverse_app. change (reverse fence) with fence.
    change (trimStart (((((fence ++ reverse ws2) ++ reverse body) ++ reverse ws1)
                         ++ reverse (js "json")) ++ fence))
      with (((((fence ++ reverse ws2) ++ reverse body) ++ reverse ws1)
               ++ reverse (js "json")) ++ fence).
    rewrite !reverse_app, !reverse_involutive. change (reverse fence) with fence.
    reflexivity. }
  rewrite Htrim. unfold stripFenceStart.
  assert (Hprefix : startsWith (fence ++ js "json" ++ rest) (fence ++ js "json") = true).
  { apply startsWith_prefix. rewrite app_assoc. now apply prefix_app_r. }
  rewrite Hprefix.
  change (drop 7 (fence ++ js "json" ++ rest)) with rest. subst rest.
  rewrite (trimStart_skip ws1) by exact Hws1.
  destruct body as [| c body].
  - cbn [app]. rewrite (trimStart_skip ws2) by exact Hws2. reflexivity.
  - pose proof (trimStart_kept c body Hstart) as Hc.
    cbn [app trimStart]. rewrite Hc. unfold stripFenceEnd.
    assert (Hsuffix : endsWith (c :: body ++ ws2 ++ fence) fence = true).
    { apply endsWith_suffix. change (c :: body ++ ws2 ++ fence) with ((c :: body) ++ ws2 ++ fence).
      rewrite !app_assoc. now apply suffix_app_r. }
    rewrite Hsuffix.
    change (c :: body ++ ws2 ++ fence) with ((c :: body) ++ ws2 ++ fence).
    rewrite app_assoc, length_app. change (length fence) with 3%nat.
    rewrite Nat.add_sub, take_app_length.
    now rewrite (trimEnd_skip (c :: body) ws2 Hws2).
Qed.

Lemma fenced_reply_read_as_body_witness :
  cleaned (fence ++ js "json" ++ [0xA] ++ js "{}" ++ [0xA] ++ fence) = js "{}".
Proof.
  apply (fenced_reply_read_as_body [0xA] (js "{}") [0xA]); reflexivity.
Defined.

(** ** The run *)

Section Stability.
Context {A : Type} (cmp : A -> A -> Z) (key : A -> Z) (P : A -> Prop).
Hypothesis cmp_key : forall a b, P a -> P b -> cmp a b = (key b - key a)%Z.

Lemma insert_same_key (k : Z) (x : A) (l : list A) :
  P x -> Forall P l ->
  List.filter (fun a => (key a =? k)%Z) (JS.insert cmp x l)
  = List.filter (fun a => (key a =? k)%Z) (x :: l).
Proof.
  intros Hx Hl. induction l as [| y l IH]; cbn [JS.insert]; [reflexivity |].
  apply Forall_cons in Hl as [Hy Hl]. rewrite (cmp_key x y Hx Hy).
  destruct (key y - key x <=? 0)%Z eqn:Hcmp; [reflexivity |].
  apply Z.leb_gt in Hcmp. cbn [List.filter]. rewrite (IH Hl). cbn [List.filter].
  destruct (key y =? k)%Z eqn:Hyk, (key x =? k)%Z eqn:Hxk; try reflexivity.
  apply Z.eqb_eq in Hyk, Hxk. lia.
Qed.

Lemma sort_same_key (k : Z) (l : list A) :
  Forall P l ->
  List.filter (fun a => (key a =? k)%Z) (JS.sort cmp l)
  = List.filter (fun a => (key a =? k)%Z) l.
Proof.
  induction l as [| x l IH]; intros Hl; [reflexivity |].
  apply Forall_cons in Hl as [Hx Hl]. cbn [JS.sort].
  rewrite insert_same_key; [| exact Hx | now rewrite sort_Permutation].
  cbn [List.filter]. now rewrite (IH Hl).
Qed.
End Stability.

Section RunMore.
Context `{Engine}.
Variable rules : FilterRules.

Lemma In_take {A} (n : nat) (l : list A) (x : A) : In x (take n l) -> In x l.
Proof.
  rewrite <- !list_elem_of_In. apply subseteq_take.
Qed.

Lemma summarizeAll_no_source (w : World) (top : list RawArticle) :
  (exists a, In a top /\ source a = None) ->
  forall n, summarizeAll w n top = None.
Proof.
  induction top as [| a top IH]; intros (b & Hin & Hb) n; [destruct Hin |].
  cbn [summarizeAll]. destruct (source a) as [src |] eqn:Ha; [| reflexivity].
  destruct Hin as [-> | Hin]; [congruence |].
  rewrite IH; [reflexivity | now exists b].
Qed.

Lemma summarizeAll_sources (w : World) (top : list RawArticle) :
  Forall (fun a => is_Some (source a)) top ->
  forall n, is_Some (summarizeAll w n top).
Proof.
  induction top as [| a top IH]; intros Hall n; cbn [summarizeAll]; [eauto |].
  apply Forall_cons in Hall as [[src Ha] Hall]. rewrite Ha.
  destruct (IH Hall (S n)) as [processed ->]. cbn. eauto.
Qed.

Lemma summarizeAll_each (w : World) (top : list RawArticle) :
  forall (n : nat) (processed : list ProcessedArticle),
    summarizeAll w n top = Some processed ->
    forall (k : nat) (a : RawArticle),
      top !! k = Some a ->
      exists p, processed !! k = Some p
                /\ p_title_ja p = title_ja (summarizeArticle (model w (n + k)) a)
                /\ p_summary_ja p = summary_ja (summarizeArticle (model w (n + k)) a)
                /\ p_title p = title a
                /\ original_url p = url a
                /\ image_url p = urlToImage a
                /\ published_at p = publishedAt a
                /\ p_source p = source a ≫= name.
Proof.
  induction top as [| b top IH]; intros n processed Hsum k a Hk; [discriminate |].
  cbn [summarizeAll] in Hsum. destruct (source b) as [src |] eqn:Hb; [| discriminate].
  destruct (summarizeAll w (S n) top) as [rest |] eqn:Hrest; [| discriminate].
  cbn in Hsum. injection Hsum as <-. destruct k as [| k].
  - cbn in Hk. injection Hk as ->. eexists. split; [reflexivity |].
    cbn. rewrite Nat.add_0_r, Hb. now repeat split.
  - cbn in Hk. destruct (IH _ _ Hrest k a Hk) as (p & Hp & Hfields).
    exists p. split; [exact Hp |]. now rewrite Nat.add_succ_r.
Qed.

Lemma topArticles_nil_fetch (w : World) :
  (length (fetchNews w) =? 0)%nat = true -> topArticles rules (fetchNews w) = [].
Proof.
  intros Hlen. apply Nat.eqb_eq in Hlen. now destruct (fetchNews w).
Qed.

End RunMore.

(** X11: the articles of a run are fetched articles, none carries the
    title [Removed], and each one passes the relevance filter. *)
Theorem topArticles_only_relevant `{Engine}
        (rules : FilterRules) (articles : list RawArticle) (a : RawArticle) :
  In a (topArticles rules articles) ->
  In a articles
  /\ title a <> Some (js "[Removed]")
  /\ isAiRelatedArticle rules a = true.
Proof.
  unfold topArticles. intros Hin. apply In_take in Hin.
  rewrite <- list_elem_of_In in Hin. rewrite sort_Permutation in Hin.
  rewrite list_elem_of_In in Hin.
  apply filter_In in Hin as [Hin Hrelevant]. apply filter_In in Hin as [Hin Hvalid].
  repeat split; [exact Hin | | exact Hrelevant].
  apply negb_true_iff in Hvalid. now apply bool_decide_eq_false in Hvalid.
Qed.

Lemma topArticles_only_relevant_witness :
  In (Examples.dated "AI chips" (Some "2024-05-01T10:00:00Z"%string))
     (fetchNews Examples.world)
  /\ title (Examples.dated "AI chips" (Some "2024-05-01T10:00:00Z"%string))
     <> Some (js "[Removed]")
  /\ isAiRelatedArticle Examples.sportsRules
       (Examples.dated "AI chips" (Some "2024-05-01T10:00:00Z"%string)) = true.
Proof.
  apply (topArticles_only_relevant Examples.sportsRules (fetchNews Examples.world)).
  vm_compute. right. left. reflexivity.
Defined.

(** X12: the cut to twenty keeps the newest.  The articles of a run,
    together with those the cut dropped, are the fetched articles that are
    not [Removed] and pass the filter; there are twenty of them or, if
    fewer pass, all of those; no dropped article is newer than a kept
    one. *)
Theorem cut_keeps_newest `{Engine} (rules : FilterRules) (articles : list RawArticle) :
  datesValid articles ->
  exists dropped,
    topArticles rules articles ++ dropped
    ≡ₚ List.filter (isAiRelatedArticle rules)
         (List.filter (fun a => negb (bool_decide (title a = Some (js "[Removed]"))))
                      articles)
    /\ length (topArticles rules articles)
       = Nat.min 20 (length (topArticles rules articles ++ dropped))
    /\ forall a b, In a (topArticles rules articles) -> In b dropped ->
                   (timeOf (publishedAt b) <= timeOf (publishedAt a))%Z.
Proof.
  intros Hvalid. unfold topArticles.
  set (filtered := List.filter (isAiRelatedArticle rules) _).
  exists (drop 20 (JS.sort byDateDescending filtered)).
  rewrite take_drop. repeat split.
  - apply sort_Permutation.
  - apply length_take.
  - intros a b Ha Hb.
    assert (Hsorted : StronglySorted
                        (descendingBy (fun a => timeOf (publishedAt a)))
                        (take 20 (JS.sort byDateDescending filtered)
                         ++ drop 20 (JS.sort byDateDescending filtered))).
    { rewrite take_drop.
      apply (sort_sorted byDateDescending (fun a => timeOf (publishedAt a))
                         (fun a => is_Some (getTime (publishedAt a)))).
      - intros x y. apply byDateDescending_key.
      - subst filtered. now do 2 apply filter_Forall. }
    rewrite <- list_elem_of_In in Ha, Hb.
    exact (StronglySorted_app_1_elem_of _ _ _ _ _ Hsorted Ha Hb).
Qed.

Lemma cut_keeps_newest_witness :
  exists dropped,
    topArticles Examples.sportsRules (fetchNews Examples.world) ++ dropped
    ≡ₚ List.filter (isAiRelatedArticle Examples.sportsRules)
         (List.filter (fun a => negb (bool_decide (title a = Some (js "[Removed]"))))
                      (fetchNews Examples.world))
    /\ length (topArticles Examples.sportsRules (fetchNews Examples.world))
       = Nat.min 20 (length (topArticles Examples.sportsRules (fetchNews Examples.world)
                             ++ dropped))
    /\ forall a b, In a (topArticles Examples.sportsRules (fetchNews Examples.world)) ->
                   In b dropped ->
                   (timeOf (publishedAt b) <= timeOf (publishedAt a))%Z.
Proof.
  apply (cut_keeps_newest Examples.sportsRules (fetchNews Examples.world)).
  repeat constructor; vm_compute; eauto.
Defined.

(** X13: the sort is stable: articles of one and the same publish time
    stay in the order the news API gave them. *)
Theorem same_time_keeps_order `{Engine} (articles : list RawArticle) (t : Z) :
  datesValid articles ->
  List.filter (fun a => (timeOf (publishedAt a) =? t)%Z) (JS.sort byDateDescending articles)
  = List.filter (fun a => (timeOf (publishedAt a) =? t)%Z) articles.
Proof.
  intros Hvalid.
  apply (sort_same_key byDateDescending (fun a => timeOf (publishedAt a))
                       (fun a => is_Some (getTime (publishedAt a)))).
  - intros a b. apply byDateDescending_key.
  - exact Hvalid.
Qed.

Lemma same_time_keeps_order_witness :
  List.filter (fun a => (timeOf (publishedAt a) =? 0)%Z)
              (JS.sort byDateDescending (fetchNews Examples.undatedWorld))
  = List.filter (fun a => (timeOf (publishedAt a) =? 0)%Z) (fetchNews Examples.undatedWorld).
Proof.
  apply (same_time_keeps_order (fetchNews Examples.undatedWorld) 0).
  repeat constructor; vm_compute; eauto.
Defined.

(** X14: a run touches two files at most, the latest snapshot and the
    archive of the day; every other file is as it was. *)
Theorem run_touches_two_files `{Engine}
        (rules : FilterRules) (w : World) (disk : Disk) (path : jsstring) :
  path <> latestPath -> path <> archivePath (today w) ->
  snd (processNews rules w disk) !! path = disk !! path.
Proof.
  intros Hlatest Harchive. unfold processNews.
  destruct (length (fetchNews w) =? 0)%nat; [reflexivity |].
  destruct (length (topArticles rules (fetchNews w)) =? 0)%nat; [reflexivity |].
  destruct (summarizeAll w 0 (topArticles rules (fetchNews w))); [| reflexivity].
  unfold writeFileSync.
  destruct (writable w latestPath); [| reflexivity].
  destruct (writable w (archivePath (today w))); cbn [snd].
  - now rewrite !lookup_insert_ne by congruence.
  - now rewrite lookup_insert_ne by congruence.
Qed.

Lemma run_touches_two_files_witness :
  snd (processNews Examples.sportsRules Examples.world ∅) !! js "public/index.html"
  = (∅ : Disk) !! js "public/index.html".
Proof.
  apply (run_touches_two_files Examples.sportsRules Examples.world ∅ (js "public/index.html"));
    vm_compute; discriminate.
Defined.

(** X15: a second run that meets the same world overwrites: it ends as
    the first did and leaves the disk as the first left it. *)
Theorem second_run_overwrites `{Engine} (rules : FilterRules) (w : World) (disk : Disk) :
  processNews rules w (snd (processNews rules w disk)) = processNews rules w disk.
Proof.
  unfold processNews.
  destruct (length (fetchNews w) =? 0)%nat; [reflexivity |].
  destruct (length (topArticles rules (fetchNews w)) =? 0)%nat; [reflexivity |].
  destruct (summarizeAll w 0 (topArticles rules (fetchNews w))) as [processed |];
    [| reflexivity].
  unfold writeFileSync.
  destruct (writable w latestPath); [| reflexivity].
  destruct (writable w (archivePath (today w))); cbn [snd]; f_equal.
  - apply map_eq. intros path.
    destruct (decide (path = archivePath (today w))) as [-> | Harchive].
    + now rewrite !lookup_insert_eq.
    + rewrite !(lookup_insert_ne _ (archivePath (today w))) by congruence.
      destruct (decide (path = latestPath)) as [-> | Hlatest].
      * now rewrite !lookup_insert_eq.
      * now rewrite !lookup_insert_ne by congruence.
  - apply insert_insert_eq.
Qed.

(** X16: an article without a source among the articles of a run makes
    the run throw before it writes anything. *)
Theorem missing_source_aborts `{Engine}
        (rules : FilterRules) (w : World) (disk : Disk) (a : RawArticle) :
  In a (topArticles rules (fetchNews w)) -> source a = None ->
  processNews rules w disk = (Threw, disk).
Proof.
  intros Hin Ha. unfold processNews.
  destruct (length (fetchNews w) =? 0)%nat eqn:Hfetch.
  { rewrite (topArticles_nil_fetch rules w Hfetch) in Hin. destruct Hin. }
  destruct (topArticles rules (fetchNews w)) as [| b top] eqn:Htop; [destruct Hin |].
  cbn [length Nat.eqb]. rewrite summarizeAll_no_source; [reflexivity | now exists a].
Qed.

Lemma missing_source_aborts_witness :
  processNews Examples.sportsRules Examples.sourcelessWorld ∅ = (Threw, ∅).
Proof.
  apply (missing_source_aborts Examples.sportsRules Examples.sourcelessWorld ∅
                               Examples.sourceless).
  - vm_compute. right. left. reflexivity.
  - reflexivity.
Defined.

(** X17: a run ends well exactly when some article is left after the
    filter and the cut, each of them has a source, and both files can be
    written. *)
Theorem run_saves_exactly_when `{Engine} (rules : FilterRules) (w : World) (disk : Disk) :
  fst (processNews rules w disk) = Saved <->
  topArticles rules (fetchNews w) <> []
  /\ Forall (fun a => is_Some (source a)) (topArticles rules (fetchNews w))
  /\ writable w latestPath = true
  /\ writable w (archivePath (today w)) = true.
Proof.
  unfold processNews.
  destruct (length (fetchNews w) =? 0)%nat eqn:Hfetch.
  { rewrite (topArticles_nil_fetch rules w Hfetch).
    split; [discriminate | now intros [Hne _]]. }
  destruct (topArticles rules (fetchNews w)) as [| b top] eqn:Htop;
    [split; [discriminate | now intros [Hne _]] |].
  cbn [length Nat.eqb].
  destruct (summarizeAll w 0 (b :: top)) as [processed |] eqn:Hsum.
  - assert (Hsources : Forall (fun a => is_Some (source a)) (b :: top)).
    { apply List.Forall_forall. intros a Hin.
      destruct (source a) as [src |] eqn:Ha; [eauto |].
      rewrite (summarizeAll_no_source w (b :: top)) in Hsum; [discriminate | now exists a]. }
    unfold writeFileSync.
    destruct (writable w latestPath);
      [| split; [discriminate | intros (_ & _ & ? & _); discriminate]].
    destruct (writable w (archivePath (today w)));
      [| split; [discriminate | intros (_ & _ & _ & ?); discriminate]].
    split; [intros _; repeat split; [discriminate | exact Hsources] | reflexivity].
  - split; [discriminate |]. intros (_ & Hsources & _).
    destruct (summarizeAll_sources w (b :: top) Hsources 0) as [processed Hsome].
    congruence.
Qed.

(** X18: in the snapshot of a run that ends well, the article at each
    place is the article the sort and the cut left at that place, with the
    title and summary of the model call of that rank and its own URL,
    image, timestamp and source name; the snapshot is dated by the end of
    the run. *)
Theorem snapshot_entries `{Engine}
        (rules : FilterRules) (w : World) (disk : Disk) (k : nat) (a : RawArticle) :
  fst (processNews rules w disk) = Saved ->
  topArticles rules (fetchNews w) !! k = Some a ->
  exists snap p,
    snd (processNews rules w disk) !! latestPath = Some snap
    /\ snd (processNews rules w disk) !! archivePath (today w) = Some snap
    /\ updated_at snap = now w
    /\ articles snap !! k = Some p
    /\ p_title_ja p = title_ja (summarizeArticle (model w k) a)
    /\ p_summary_ja p = summary_ja (summarizeArticle (model w k) a)
    /\ p_title p = title a
    /\ original_url p = url a
    /\ image_url p = urlToImage a
    /\ published_at p = publishedAt a
    /\ p_source p = source a ≫= name.
Proof.
  intros Hsaved Hk.
  destruct (processNews_saved rules w disk Hsaved) as (processed & Hsum & Hsame & Harchive).
  destruct (summarizeAll_each w _ _ _ Hsum k a Hk) as (p & Hp & Hfields).
  exists {| updated_at := now w; articles := processed |}, p.
  rewrite Hsame, Harchive. repeat split; try reflexivity; [exact Hp | ..]; apply Hfields.
Qed.

Lemma snapshot_entries_witness :
  exists snap p,
    snd (processNews Examples.sportsRules Examples.world ∅) !! latestPath = Some snap
    /\ snd (processNews Examples.sportsRules Examples.world ∅)
         !! archivePath (today Examples.world) = Some snap
    /\ updated_at snap = now Examples.world
    /\ articles snap !! 1%nat = Some p
    /\ p_title_ja p
       = title_ja (summarizeArticle (model Examples.world 1)
                     (Examples.dated "AI chips" (Some "2024-05-01T10:00:00Z"%string)))
    /\ p_summary_ja p
       = summary_ja (summarizeArticle (model Examples.world 1)
                       (Examples.dated "AI chips" (Some "2024-05-01T10:00:00Z"%string)))
    /\ p_title p = title (Examples.dated "AI chips" (Some "2024-05-01T10:00:00Z"%string))
    /\ original_url p = url (Examples.dated "AI chips" (Some "2024-05-01T10:00:00Z"%string))
    /\ image_url p
       = urlToImage (Examples.dated "AI chips" (Some "2024-05-01T10:00:00Z"%string))
    /\ published_at p
       = publishedAt (Examples.dated "AI chips" (Some "2024-05-01T10:00:00Z"%string))
    /\ p_source p
       = source (Examples.dated "AI chips" (Some "2024-05-01T10:00:00Z"%string)) ≫= name.
Proof.
  apply (snapshot_entries Examples.sportsRules Examples.world ∅ 1
                          (Examples.dated "AI chips" (Some "2024-05-01T10:00:00Z"%string)));
    vm_compute; reflexivity.
Defined.

(** ** The worker *)

Section WorkerMore.

Lemma fetchAll_Some (network : jsstring -> Worker.FetchOutcome) (urls : list jsstring) :
  (forall u, In u urls ->
             exists r, network u = Worker.Resolved r /\ Worker.storable r = true) ->
  exists responses,
    Worker.fetchAll network urls = Some responses
    /\ forall u, In u urls -> exists r, network u = Worker.Resolved r /\ In (u, r) responses.
Proof.
  induction urls as [| u urls IH]; intros Hall; cbn [Worker.fetchAll].
  - exists []. split; [reflexivity | intros u []].
  - destruct (Hall u (or_introl eq_refl)) as (r & Hr & Hok). rewrite Hr, Hok.
    destruct IH as (responses & -> & Hin); [intros v Hv; apply Hall; now right |].
    exists ((u, r) :: responses). split; [reflexivity |].
    intros v [<- | Hv].
    + exists r. split; [exact Hr | now left].
    + destruct (Hin v Hv) as (r' & Hr' & Hin'). exists r'. split; [exact Hr' | now right].
Qed.

Lemma fetchAll_network (network : jsstring -> Worker.FetchOutcome) (urls : list jsstring) :
  forall responses,
    Worker.fetchAll network urls = Some responses ->
    forall u r, In (u, r) responses -> network u = Worker.Resolved r.
Proof.
  induction urls as [| v urls IH]; intros responses Hfetch u r Hin;
    cbn [Worker.fetchAll] in Hfetch.
  - injection Hfetch as <-. destruct Hin.
  - destruct (network v) as [| rv] eqn:Hv; [discriminate |].
    destruct (Worker.storable rv); [| discriminate].
    destruct (Worker.fetchAll network urls) as [rest |]; [| discriminate].
    cbn in Hfetch. injection Hfetch as <-.
    destruct Hin as [[= <- <-] | Hin]; [exact Hv | now apply (IH rest)].
Qed.

Lemma fetchAll_None (network : jsstring -> Worker.FetchOutcome) (urls : list jsstring) :
  (exists u, In u urls /\ forall r, network u = Worker.Resolved r -> Worker.storable r = false) ->
  Worker.fetchAll network urls = None.
Proof.
  induction urls as [| v urls IH]; intros (u & Hin & Hu); [destruct Hin |].
  cbn [Worker.fetchAll]. destruct (network v) as [| rv] eqn:Hv; [reflexivity |].
  destruct (Worker.storable rv) eqn:Hok; [| reflexivity].
  destruct Hin as [-> | Hin]; [rewrite (Hu rv Hv) in Hok; discriminate |].
  rewrite IH; [reflexivity | now exists u].
Qed.

Lemma put_In (cacheName request : jsstring) (response : Worker.Response)
      (caches : Worker.CacheStorage) (cache : Worker.Cache) :
  In (cacheName, cache) caches ->
  In (cacheName, <[request := response]> cache)
     (Worker.put cacheName request response caches).
Proof.
  intros Hin. unfold Worker.put. apply in_map_iff. exists (cacheName, cache).
  split; [| exact Hin]. cbn [fst snd]. unfold JS.eqb. now rewrite bool_decide_eq_true_2.
Qed.

(** The puts of [addAll], followed in one cache of the storage. *)
Lemma putAll_In (cacheName : jsstring) (responses : list (jsstring * Worker.Response)) :
  forall (caches : Worker.CacheStorage) (cache : Worker.Cache),
    In (cacheName, cache) caches ->
    In (cacheName, fold_left (fun c entry => <[fst entry := snd entry]> c) responses cache)
       (fold_left (fun cs entry => Worker.put cacheName (fst entry) (snd entry) cs)
                  responses caches).
Proof.
  induction responses as [| [u r] responses IH]; intros caches cache Hin; [exact Hin |].
  cbn [fold_left fst snd]. apply IH. now apply put_In.
Qed.

Lemma putAll_lookup (network : jsstring -> Worker.FetchOutcome)
      (responses : list (jsstring * Worker.Response)) :
  (forall u r, In (u, r) responses -> network u = Worker.Resolved r) ->
  forall (cache : Worker.Cache) (u : jsstring) (r : Worker.Response),
    In (u, r) responses ->
    fold_left (fun c entry => <[fst entry := snd entry]> c) responses cache !! u = Some r.
Proof.
  induction responses as [| [v rv] responses IH] using rev_ind;
    intros Hnet cache u r Hin; [destruct Hin |].
  rewrite fold_left_app. cbn [fold_left fst snd].
  destruct (decide (v = u)) as [-> | Hne].
  - rewrite lookup_insert_eq. f_equal.
    assert (Hv : network u = Worker.Resolved rv) by (apply Hnet, in_or_app; right; now left).
    assert (Hu : network u = Worker.Resolved r) by now apply Hnet.
    congruence.
  - rewrite lookup_insert_ne by exact Hne.
    apply in_app_or in Hin as [Hin | [[= -> ->] | []]]; [| now contradiction Hne].
    apply IH; [| exact Hin]. intros u' r' Hin'. apply Hnet, in_or_app. now left.
Qed.

Lemma open_In (cacheName name : jsstring) (cache : Worker.Cache)
      (caches : Worker.CacheStorage) :
  In (name, cache) (Worker.open cacheName caches) ->
  In (name, cache) caches \/ (name = cacheName /\ cache = ∅).
Proof.
  unfold Worker.open. destruct (Worker.has caches cacheName); [now left |].
  intros Hin. apply in_app_or in Hin as [Hin | [[= <- <-] | []]]; [now left | now right].
Qed.

Lemma open_keeps (cacheName : jsstring) (caches : Worker.CacheStorage) :
  exists added, Worker.open cacheName caches = caches ++ added
                /\ (added = [] \/ added = [(cacheName, ∅)]).
Proof.
  unfold Worker.open. destruct (Worker.has caches cacheName).
  - exists []. split; [now rewrite app_nil_r | now left].
  - exists [(cacheName, ∅)]. split; [reflexivity | now right].
Qed.

Lemma matchAll_app (request : jsstring) (l1 l2 : Worker.CacheStorage) :
  Worker.matchAll request (l1 ++ l2)
  = match Worker.matchAll request l1 with
    | Some r => Some r
    | None => Worker.matchAll request l2
    end.
Proof.
  induction l1 as [| [k c] l1 IH]; cbn [app Worker.matchAll]; [reflexivity |].
  now destruct (c !! request).
Qed.

Lemma matchAll_put_other (cacheName request other : jsstring) (response : Worker.Response)
      (caches : Worker.CacheStorage) :
  other <> request ->
  Worker.matchAll other (Worker.put cacheName request response caches)
  = Worker.matchAll other caches.
Proof.
  intros Hne. induction caches as [| [k c] caches IH]; [reflexivity |].
  cbn [Worker.put List.map fst snd]. fold (Worker.put cacheName request response caches).
  destruct (JS.eqb k cacheName); cbn [Worker.matchAll].
  - rewrite lookup_insert_ne by congruence. now rewrite IH.
  - now rewrite IH.
Qed.

Lemma matchAll_put_current (cacheName request : jsstring) (response : Worker.Response)
      (caches : Worker.CacheStorage) :
  In cacheName (Worker.keys caches) ->
  (forall name cache, In (name, cache) caches -> name <> cacheName -> cache !! request = None) ->
  Worker.matchAll request (Worker.put cacheName request response caches) = Some response.
Proof.
  induction caches as [| [k c] caches IH]; intros Hin Hothers; [destruct Hin |].
  cbn [Worker.put List.map fst snd]. fold (Worker.put cacheName request response caches).
  destruct (JS.eqb k cacheName) eqn:Hk; cbn [Worker.matchAll].
  - now rewrite lookup_insert_eq.
  - assert (Hne : k <> cacheName).
    { intros ->. unfold JS.eqb in Hk. now rewrite bool_decide_eq_true_2 in Hk. }
    rewrite (Hothers k c (or_introl eq_refl) Hne). apply IH.
    + destruct Hin as [Heq | Hin]; [now contradiction Hne | exact Hin].
    + intros name cache Hin'. apply Hothers. now right.
Qed.

End WorkerMore.

(** X19: when every asset of the list comes back from the network with a
    response [addAll] accepts, the installation succeeds and the current
    cache then holds, for each asset, the response the network gave. *)
Theorem install_stores_every_asset
        (network : jsstring -> Worker.FetchOutcome) (caches : Worker.CacheStorage) :
  (forall u, In u Worker.ASSETS ->
             exists r, network u = Worker.Resolved r /\ Worker.storable r = true) ->
  fst (Worker.install network caches) = true
  /\ exists cache,
       In (Worker.CACHE_NAME, cache) (snd (Worker.install network caches))
       /\ forall u, In u Worker.ASSETS ->
                    exists r, network u = Worker.Resolved r /\ cache !! u = Some r.
Proof.
  intros Hall. destruct (fetchAll_Some network Worker.ASSETS Hall) as (responses & Hfetch & Hin).
  unfold Worker.install. rewrite Hfetch. cbn [fst snd]. split; [reflexivity |].
  pose proof (open_keys Worker.CACHE_NAME caches) as Hcurrent.
  unfold Worker.keys in Hcurrent. apply in_map_iff in Hcurrent as ([k c0] & Hk & Hc0).
  cbn [fst] in Hk. subst k.
  exists (fold_left (fun c entry => <[fst entry := snd entry]> c) responses c0).
  split; [now apply putAll_In |].
  intros u Hu. destruct (Hin u Hu) as (r & Hr & Hur). exists r. split; [exact Hr |].
  apply (putAll_lookup network); [| exact Hur].
  now apply (fetchAll_network network Worker.ASSETS).
Qed.

Lemma install_stores_every_asset_witness :
  fst (Worker.install (fun _ => Worker.Resolved Examples.page) []) = true
  /\ exists cache,
       In (Worker.CACHE_NAME, cache)
          (snd (Worker.install (fun _ => Worker.Resolved Examples.page) []))
       /\ forall u, In u Worker.ASSETS ->
                    exists r, (fun _ => Worker.Resolved Examples.page) u = Worker.Resolved r
                              /\ cache !! u = Some r.
Proof.
  apply (install_stores_every_asset (fun _ => Worker.Resolved Examples.page) []).
  intros u _. exists Examples.page. split; reflexivity.
Defined.

(** X20: when one asset of the list fails to come, or comes with a
    response [addAll] refuses, the installation fails and stores nothing:
    the caches answer every request as they did before. *)
Theorem install_fails_as_a_whole
        (network : jsstring -> Worker.FetchOutcome) (caches : Worker.CacheStorage)
        (u : jsstring) :
  In u Worker.ASSETS ->
  (forall r, network u = Worker.Resolved r -> Worker.storable r = false) ->
  fst (Worker.install network caches) = false
  /\ forall request,
       Worker.matchAll request (snd (Worker.install network caches))
       = Worker.matchAll request caches.
Proof.
  intros Hin Hu. unfold Worker.install.
  rewrite (fetchAll_None network Worker.ASSETS) by now exists u.
  cbn [fst snd]. split; [reflexivity |]. intros request.
  destruct (open_keeps Worker.CACHE_NAME caches) as (added & -> & [-> | ->]).
  - now rewrite app_nil_r.
  - rewrite matchAll_app. cbn [Worker.matchAll]. rewrite lookup_empty.
    now destruct (Worker.matchAll request caches).
Qed.

Lemma install_fails_as_a_whole_witness :
  fst (Worker.install (fun _ => Worker.Rejected) Examples.twoCaches) = false
  /\ forall request,
       Worker.matchAll request (snd (Worker.install (fun _ => Worker.Rejected)
                                                    Examples.twoCaches))
       = Worker.matchAll request Examples.twoCaches.
Proof.
  apply (install_fails_as_a_whole (fun _ => Worker.Rejected) Examples.twoCaches (js "./")).
  - left. reflexivity.
  - discriminate.
Defined.

(** X21: a request that is not the data snapshot is answered from the
    caches whenever they hold it, whatever the network has; on a miss the
    network answers, and its response is not stored: the caches stay as
    they were and the next such request misses again. *)
Theorem asset_request_cache_first
        (network : Worker.FetchOutcome) (request : jsstring) (caches : Worker.CacheStorage) :
  includes request (js "/data/latest.json") = false ->
  snd (Worker.onFetch network request caches) = caches
  /\ (forall r, Worker.matchAll request caches = Some r ->
                fst (Worker.onFetch network request caches) = Some r)
  /\ (Worker.matchAll request caches = None ->
      fst (Worker.onFetch network request caches)
      = match network with
        | Worker.Resolved r => Some r
        | Worker.Rejected => None
        end).
Proof.
  intros Hasset. unfold Worker.onFetch. rewrite Hasset.
  destruct (Worker.matchAll request caches) as [r |].
  - repeat split; [now intros r' [= <-] | discriminate].
  - destruct network; repeat split; discriminate.
Qed.

Lemma asset_request_cache_first_witness :
  snd (Worker.onFetch (Worker.Resolved Examples.fresh) (js "./") Examples.twoCaches)
  = Examples.twoCaches
  /\ fst (Worker.onFetch (Worker.Resolved Examples.fresh) (js "./") Examples.twoCaches)
     = Some Examples.page.
Proof.
  destruct (asset_request_cache_first (Worker.Resolved Examples.fresh) (js "./")
                                      Examples.twoCaches) as (Hsame & Hhit & _).
  - reflexivity.
  - split; [exact Hsame | apply Hhit; reflexivity].
Defined.

(** X22: the fetch listener deletes no cache and creates none but the
    current one: the names of the caches after a request are the names
    before it, followed by the current name if it was missing, and they
    stay distinct. *)
Theorem fetch_keeps_caches
        (network : Worker.FetchOutcome) (request : jsstring) (caches : Worker.CacheStorage) :
  NoDup (Worker.keys caches) ->
  NoDup (Worker.keys (snd (Worker.onFetch network request caches)))
  /\ exists added,
       Worker.keys (snd (Worker.onFetch network request caches))
       = Worker.keys caches ++ added
       /\ (added = [] \/ added = [Worker.CACHE_NAME]).
Proof.
  intros Hnodup.
  assert (Hsame : NoDup (Worker.keys caches)
                  /\ exists added, Worker.keys caches = Worker.keys caches ++ added
                                   /\ (added = [] \/ added = [Worker.CACHE_NAME])).
  { split; [exact Hnodup |]. exists []. split; [now rewrite app_nil_r | now left]. }
  unfold Worker.onFetch. destruct (includes request (js "/data/latest.json")).
  - destruct network as [| response]; [exact Hsame |].
    destruct (negb _ || negb _); [exact Hsame |].
    cbn [snd]. rewrite put_keys. split; [now apply open_NoDup |].
    destruct (open_keeps Worker.CACHE_NAME caches) as (added & -> & [-> | ->]).
    + exists []. split; [now rewrite !app_nil_r | now left].
    + exists [Worker.CACHE_NAME]. split; [| now right].
      unfold Worker.keys. now rewrite map_app.
  - destruct (Worker.matchAll request caches); [exact Hsame |].
    destruct network; exact Hsame.
Qed.

Lemma fetch_keeps_caches_witness :
  NoDup (Worker.keys (snd (Worker.onFetch (Worker.Resolved Examples.fresh)
                                          Examples.dataRequest Examples.twoCaches)))
  /\ exists added,
       Worker.keys (snd (Worker.onFetch (Worker.Resolved Examples.fresh)
                                        Examples.dataRequest Examples.twoCaches))
       = Worker.keys Examples.twoCaches ++ added
       /\ (added = [] \/ added = [Worker.CACHE_NAME]).
Proof.
  apply (fetch_keeps_caches (Worker.Resolved Examples.fresh) Examples.dataRequest
                            Examples.twoCaches).
  apply (bool_decide_unpack (NoDup (Worker.keys Examples.twoCaches))). vm_compute. exact I.
Defined.

(** X23: serving one request changes nothing for another: what the caches
    answer for any other request is the same before and after. *)
Theorem fetch_leaves_other_requests
        (network : Worker.FetchOutcome) (request other : jsstring)
        (caches : Worker.CacheStorage) :
  other <> request ->
  Worker.matchAll other (snd (Worker.onFetch network request caches))
  = Worker.matchAll other caches.
Proof.
  intros Hne. unfold Worker.onFetch. destruct (includes request (js "/data/latest.json")).
  - destruct network as [| response]; [reflexivity |].
    destruct (negb _ || negb _); [reflexivity |].
    cbn [snd]. rewrite matchAll_put_other by exact Hne.
    destruct (open_keeps Worker.CACHE_NAME caches) as (added & -> & [-> | ->]).
    + now rewrite app_nil_r.
    + rewrite matchAll_app. cbn [Worker.matchAll]. rewrite lookup_empty.
      now destruct (Worker.matchAll other caches).
  - destruct (Worker.matchAll request caches); [reflexivity |].
    now destruct network.
Qed.

Lemma fetch_leaves_other_requests_witness :
  Worker.matchAll (js "./")
                  (snd (Worker.onFetch (Worker.Resolved Examples.fresh) Examples.dataRequest
                                       Examples.twoCaches))
  = Worker.matchAll (js "./") Examples.twoCaches.
Proof.
  apply (fetch_leaves_other_requests (Worker.Resolved Examples.fresh) Examples.dataRequest
                                     (js "./") Examples.twoCaches).
  vm_compute. discriminate.
Defined.

(** X24: a snapshot fetched with status 200 and type basic is what the
    page receives when the same request is made later without network,
    provided no cache other than the current one holds the request (as
    after activation). *)
Theorem fetched_snapshot_served_offline
        (request : jsstring) (response : Worker.Response) (caches : Worker.CacheStorage) :
  includes request (js "/data/latest.json") = true ->
  Worker.status response = 200 -> Worker.type response = Worker.basic ->
  (forall name cache, In (name, cache) caches -> name <> Worker.CACHE_NAME
                      -> cache !! request = None) ->
  fst (Worker.onFetch Worker.Rejected request
                      (snd (Worker.onFetch (Worker.Resolved response) request caches)))
  = Some response.
Proof.
  intros Hdata Hstatus Htype Hothers. unfold Worker.onFetch. rewrite Hdata, Hstatus, Htype.
  cbn. apply matchAll_put_current; [apply open_keys |].
  intros name cache Hin Hname.
  apply open_In in Hin as [Hin | [-> _]]; [now apply (Hothers name) | now contradiction Hname].
Qed.

Lemma fetched_snapshot_served_offline_witness :
  fst (Worker.onFetch Worker.Rejected Examples.dataRequest
                      (snd (Worker.onFetch (Worker.Resolved Examples.fresh)
                                           Examples.dataRequest Examples.twoCaches)))
  = Some Examples.fresh.
Proof.
  apply (fetched_snapshot_served_offline Examples.dataRequest Examples.fresh Examples.twoCaches).
  - vm_compute. reflexivity.
  - reflexivity.
  - reflexivity.
  - intros name cache [[= <- <-] | [[= <- <-] | []]] Hname.
    + vm_compute. reflexivity.
    + now contradiction Hname.
Defined.

Lemma filter_false_all {A} (f : A -> bool) (l : list A) :
  (forall x, In x l -> f x = false) -> List.filter f l = [].
Proof.
  induction l as [| x l IH]; intros Hf; cbn [List.filter]; [reflexivity |].
  rewrite (Hf x (or_introl eq_refl)). apply IH. intros y Hy. apply Hf. now right.
Qed.

Lemma filter_current (cacheName : jsstring) (cache : Worker.Cache)
      (caches : Worker.CacheStorage) :
  NoDup (Worker.keys caches) -> In (cacheName, cache) caches ->
  List.filter (fun entry => JS.eqb (fst entry) cacheName) caches = [(cacheName, cache)].
Proof.
  induction caches as [| [k c] caches IH]; intros Hnodup Hin; [destruct Hin |].
  cbn [Worker.keys List.map fst] in Hnodup. fold (Worker.keys caches) in Hnodup.
  apply NoDup_cons in Hnodup as [Hk Hnodup]. rewrite list_elem_of_In in Hk.
  cbn [List.filter fst]. destruct (JS.eqb k cacheName) eqn:Heq.
  - apply eqb_true in Heq. subst k.
    destruct Hin as [[= <-] | Hin].
    + f_equal. apply filter_false_all. intros [k' c'] Hin'. cbn [fst].
      destruct (JS.eqb k' cacheName) eqn:Hk'; [| reflexivity].
      apply eqb_true in Hk'. subst k'. contradiction Hk.
      unfold Worker.keys. apply in_map_iff. now exists (cacheName, c').
    + contradiction Hk. unfold Worker.keys. apply in_map_iff. now exists (cacheName, cache).
  - destruct Hin as [[= -> ->] | Hin]; [| now apply IH].
    unfold JS.eqb in Heq. now rewrite bool_decide_eq_true_2 in Heq.
Qed.

(** X25: after activation the current cache alone answers: a request gets
    what the current cache holds for it, and a copy that only an older
    cache held is gone. *)
Theorem activation_drops_old_copies
        (request : jsstring) (cache : Worker.Cache) (caches : Worker.CacheStorage) :
  NoDup (Worker.keys caches) -> In (Worker.CACHE_NAME, cache) caches ->
  Worker.matchAll request (Worker.activate caches) = cache !! request.
Proof.
  intros Hnodup Hin. rewrite activate_filter, (filter_current _ cache) by assumption.
  cbn [Worker.matchAll]. now destruct (cache !! request).
Qed.

Lemma activation_drops_old_copies_witness :
  Worker.matchAll (js "./old.css") (Worker.activate Examples.staleCaches) = None.
Proof.
  rewrite (activation_drops_old_copies (js "./old.css") {[ js "./" := Examples.page ]}
                                       Examples.staleCaches).
  - vm_compute. reflexivity.
  - apply (bool_decide_unpack (NoDup (Worker.keys Examples.staleCaches))). vm_compute. exact I.
  - right. left. reflexivity.
Defined.
